(** * Mutation resolvers of the sick-fits backend

    A shallow embedding of [src/sick-fits/backend/src/resolvers/Mutation.js].

    Every resolver is an [async] function over a request context.  It is
    embedded as a computation in the monad [Async]: it reads and updates the
    database, appends to a trace of outward effects (cookies, mails, charges,
    console lines) and either resolves with a value or rejects with the
    exception that was thrown.  Nothing is rolled back on rejection: the world
    a rejected call leaves behind is the world at the [throw].

    The database client (Prisma), the password hasher, the token issuer, the
    mail transport and the payment gateway are libraries.  The tables are
    modelled as lists of typed rows in creation order; the remaining
    collaborators are the fields of the class [Externals].  The [info]
    argument of a resolver, the selection set of the GraphQL query, is not
    modelled: a query returns whole rows.

    Numbers are GraphQL [Int]s held in JavaScript numbers.  An integer-valued
    double is embedded as the integer in [Z] it denotes, and a sum or product
    is the exact result rounded to the nearest double, ties to even
    ([js_number]); below 2^53 nothing is rounded.  Strings are sequences of
    ASCII characters.

    A resolver runs from its first statement to its last without another
    call coming in between: the embedding is of calls made one after
    another.  Where a property depends on what happens between two
    [await]s, the steps are embedded one by one ([addToCart_lookup],
    [addToCart_write]).  The database client is embedded at work: a call is
    rejected for what the data gives (no such row, a payload the schema
    refuses, an email already taken), not for the loss of the connection;
    [jwt.sign] and [response.cookie] return. *)

From Stdlib Require Import Ascii String ZArith.
From stdpp Require Import base gmap strings list pretty.

(** ** Values, exceptions and effects *)

(** What an argument object or a [data] payload can hold in a field. *)
Inductive Value :=
| VNull
| VNum (n : Z)
| VStr (s : string)
| VConnect (id : string)        (* { connect: { id } } *)
| VSet (labels : list string).  (* { set: [...] } *)

Abbreviation Obj := (gmap string Value).

Inductive Exn :=
| Error (message : string)          (* throw new Error(message) *)
| TypeError (message : string)      (* a property read on undefined or null *)
| Failure (origin reason : string). (* a collaborator's promise rejected *)

(** The error kinds of the specification (section 7), and the kind under
    which each message thrown by the resolvers is filed there. *)
Inductive ErrorKind := AuthError | NotFoundError | ValidationError.

Definition no_such_user : string := "No such user found for email ".

(** Modelled from the spec: [hasPermission] is defined in [../utils], outside
    the resolver file; the text of its error is not given, only that it is an
    [AuthError]. *)
Definition insufficient_permissions : string :=
  "You do not have sufficient permissions".

Definition auth_messages : list string :=
  [ "You must be logged in to do that!";
    "You don't have permission to do that!";
    "Invalid Password!";
    "This token is either invalid or expired!";
    "You must be logged in!";
    "You must be signed in soon";
    "Cheatin huhhhh";
    "You must be signed in to complete this order.";
    insufficient_permissions ].

Fixpoint has_prefix (p s : string) : bool :=
  match p, s with
  | EmptyString, _ => true
  | String a p', String b s' => Ascii.eqb a b && has_prefix p' s'
  | String _ _, EmptyString => false
  end.

Definition error_kind (e : Exn) : option ErrorKind :=
  match e with
  | Error m =>
      if existsb (String.eqb m) auth_messages then Some AuthError
      else if has_prefix no_such_user m then Some NotFoundError
      else if String.eqb m "No CartItem Found!" then Some NotFoundError
      else if String.eqb m "Yo Passwords don't match!" then Some ValidationError
      else None
  | _ => None
  end.

Record Mail := mkMail {
  mail_from : string;
  mail_to : string;
  mail_subject : string;
  mail_html : string
}.

Record ChargeRequest := mkCharge {
  amount : Z;
  currency : string;
  source : string
}.

Inductive Effect :=
| SetCookie (name value : string) (httpOnly : bool) (maxAge : Z)
| ClearCookie (name : string)
| ConsoleLog (line : string)
| SendMail (m : Mail)
| StripeCharge (c : ChargeRequest).

(** ** Rows

    The columns are the fields the resolvers select, filter on and write
    (spec section 3).  A relation is stored as the id of the row it points
    to. *)

Module User.
Record t := mk {
  id : string;
  name : string;
  email : string;
  password : string;
  resetToken : option string;
  resetTokenExpiry : option Z;
  permissions : list string
}.

Definition set_password (p : string) (u : t) : t :=
  mk (id u) (name u) (email u) p (resetToken u) (resetTokenExpiry u) (permissions u).
Definition set_reset (tok : option string) (exp : option Z) (u : t) : t :=
  mk (id u) (name u) (email u) (password u) tok exp (permissions u).
Definition set_permissions (l : list string) (u : t) : t :=
  mk (id u) (name u) (email u) (password u) (resetToken u) (resetTokenExpiry u) l.

(** The row a [UserCreateInput] describes, under the id [i] chosen by the
    database: name, email, password and a permission set, nothing else. *)
Definition create (i : string) (data : Obj) : option t :=
  match data !! "name", data !! "email", data !! "password", data !! "permissions" with
  | Some (VStr n), Some (VStr e), Some (VStr p), Some (VSet l) =>
      if bool_decide (size data = 4%nat) then Some (mk i n e p None None l) else None
  | _, _, _, _ => None
  end.
End User.

Module Item.
Record t := mk {
  id : string;
  title : string;
  description : string;
  image : string;
  price : Z;
  user : string      (* id of the owning user *)
}.

(** The row read as an object, the owner as a reference. *)
Definition to_obj (x : t) : Obj :=
  <["id" := VStr (id x)]> (<["title" := VStr (title x)]>
  (<["description" := VStr (description x)]> (<["image" := VStr (image x)]>
  (<["price" := VNum (price x)]> (<["user" := VConnect (user x)]> ∅))))).

(** What an [ItemUpdateInput] may carry: the scalar fields and the owner;
    never the id. *)
Definition updatable (k : string) (v : Value) : bool :=
  match v with
  | VStr _ => existsb (String.eqb k) ["title"; "description"; "image"]
  | VNum _ => String.eqb k "price"
  | VConnect _ => String.eqb k "user"
  | _ => false
  end.

Definition valid_update (data : Obj) : bool :=
  bool_decide (map_Forall (λ k v, updatable k v = true) data).

Definition patch (data : Obj) (x : t) : t :=
  mk (id x)
     (match data !! "title" with Some (VStr s) => s | _ => title x end)
     (match data !! "description" with Some (VStr s) => s | _ => description x end)
     (match data !! "image" with Some (VStr s) => s | _ => image x end)
     (match data !! "price" with Some (VNum n) => n | _ => price x end)
     (match data !! "user" with Some (VConnect u) => u | _ => user x end).

(** The row an [ItemCreateInput] describes, under the id [i] chosen by the
    database: the four scalar fields and the owner, nothing else. *)
Definition create (i : string) (data : Obj) : option t :=
  match data !! "title", data !! "description", data !! "image",
        data !! "price", data !! "user" with
  | Some (VStr t), Some (VStr d), Some (VStr im), Some (VNum p), Some (VConnect u) =>
      if bool_decide (size data = 5%nat) then Some (mk i t d im p u) else None
  | _, _, _, _, _ => None
  end.
End Item.

Module CartItem.
Record t := mk {
  id : string;
  quantity : Z;
  user : string;     (* id of the user whose cart this line is in *)
  item : string      (* id of the item *)
}.

Definition set_quantity (q : Z) (c : t) : t := mk (id c) q (user c) (item c).
End CartItem.

Record Db := mkDb {
  users : list User.t;
  items : list Item.t;
  cartItems : list CartItem.t
}.

Record World := mkWorld {
  db : Db;
  effects : list Effect
}.

(** ** The request context *)

Module Request.
Record t := mk {
  userId : option string;   (* set from the session token, if any *)
  user : option User.t      (* the caller's record, attached by the server *)
}.
End Request.

Record Ctx := mkCtx {
  request : Request.t;
  Date_now : Z                (* what Date.now() reads during the call *)
}.

(** ** Promises *)

Inductive Outcome (A : Type) :=
| Resolved (a : A)
| Rejected (e : Exn).
Arguments Resolved {A} a.
Arguments Rejected {A} e.

Definition Async (A : Type) : Type := World → Outcome A * World.

#[global] Instance Async_ret : MRet Async := λ A a w, (Resolved a, w).

#[global] Instance Async_bind : MBind Async := λ A B k m w,
  match m w with
  | (Resolved a, w') => k a w'
  | (Rejected e, w') => (Rejected e, w')
  end.

Definition throw {A} (e : Exn) : Async A := λ w, (Rejected e, w).

Definition emit (e : Effect) : Async unit :=
  λ w, (Resolved tt, mkWorld (db w) (effects w ++ [e])).

Definition console_log (line : string) : Async unit := emit (ConsoleLog line).

(** [await] on a collaborator's promise whose outcome is already known. *)
Definition await {A} (o : Outcome A) : Async A := λ w, (o, w).

Definition query {A} (f : Db → A) : Async A := λ w, (Resolved (f (db w)), w).

Definition mutation {A} (f : Db → Outcome A * Db) : Async A :=
  λ w, let '(o, d) := f (db w) in (o, mkWorld d (effects w)).

(** ** Collaborators *)

Definition Receipt := string.

Class Externals := {
  bcrypt_hash : string → Z → string;
  bcrypt_compare : string → string → bool;
  jwt_sign : string → string → string;      (* jwt.sign({ userId }, secret) *)
  APP_SECRET : string;
  FRONTEND_URL : string;
  randomBytes_hex : nat → string;           (* (await randomBytes(n)).toString('hex') *)
  makeANiceEmail : string → string;
  transport_sendMail : Mail → Outcome Receipt;
  stripe_charges_create : ChargeRequest → Outcome Receipt;
  new_id : list string → string;            (* the id the database gives a new row *)
  new_id_fresh : ∀ used, new_id used ∉ used
}.

(** ** JavaScript helpers *)

(** [ctx.request.userId] when it is truthy: [undefined] and the empty string
    are falsy. *)
Definition signed_in (ctx : Ctx) : option string :=
  match Request.userId (request ctx) with
  | Some userId => if String.eqb userId "" then None else Some userId
  | None => None
  end.

(** [owner === ctx.request.userId] *)
Definition is_caller (owner : string) (ctx : Ctx) : bool :=
  match Request.userId (request ctx) with
  | Some userId => String.eqb owner userId
  | None => false
  end.

Definition is_upper (c : ascii) : bool :=
  let n := nat_of_ascii c in (65 <=? n)%nat && (n <=? 90)%nat.

Definition lower_ascii (c : ascii) : ascii :=
  if is_upper c then ascii_of_nat (nat_of_ascii c + 32) else c.

Fixpoint toLowerCase (s : string) : string :=
  match s with
  | EmptyString => EmptyString
  | String c s' => String (lower_ascii c) (toLowerCase s')
  end.

(** The double nearest to the integer [z], as the integer it denotes: below
    2^53 every integer is a double; from there on 53 significant bits are
    kept, rounding to nearest and, half way, to the even neighbour. *)
Definition js_number (z : Z) : Z :=
  let a := Z.abs z in
  if (a <? 2 ^ 53)%Z then z
  else
    let e := (Z.log2 a - 52)%Z in
    let q := Z.shiftr a e in
    let r := (a - Z.shiftl q e)%Z in
    let half := (2 ^ (e - 1))%Z in
    let q' := if (r <? half)%Z then q
              else if (half <? r)%Z then (q + 1)%Z
              else if Z.even q then q else (q + 1)%Z in
    (Z.sgn z * Z.shiftl q' e)%Z.

(** [a + b] and [a * b] on numbers. *)
Definition js_add (a b : Z) : Z := js_number (a + b).
Definition js_mul (a b : Z) : Z := js_number (a * b).

(** Number.isSafeInteger *)
Definition safe_integer (z : Z) : bool := (Z.abs z <? 2 ^ 53)%Z.

(** [l.some(x => among.includes(x))] *)
Definition some_included (l among : list string) : bool :=
  existsb (λ x, existsb (String.eqb x) among) l.

Definition nl : string := String "010"%char EmptyString.
Definition dquote : string := String "034"%char EmptyString.

(** The first element satisfying [p] is replaced by its image under [f]; the
    new element is returned with the new list. *)
Fixpoint update_first {A} (p : A → bool) (f : A → A) (l : list A)
  : option (A * list A) :=
  match l with
  | [] => None
  | x :: l' =>
      if p x then Some (f x, f x :: l')
      else match update_first p f l' with
           | Some (y, l'') => Some (y, x :: l'')
           | None => None
           end
  end.

Fixpoint remove_first {A} (p : A → bool) (l : list A) : option (A * list A) :=
  match l with
  | [] => None
  | x :: l' =>
      if p x then Some (x, l')
      else match remove_first p l' with
           | Some (y, l'') => Some (y, x :: l'')
           | None => None
           end
  end.

(** ** The database client *)

(** Modelled from the spec: the default quantity is set in the data model
    ([datamodel.prisma]), outside the resolver file; a CartItem created
    without a quantity has quantity 1 (spec 4.5). *)
Definition CartItem_default_quantity : Z := 1.

Definition no_node (model : string) : Exn :=
  Failure "prisma" ("No Node for the model " +:+ model +:+ " found").

Definition invalid_input (type : string) : Exn :=
  Failure "prisma" ("The value provided is not a valid " +:+ type).

Definition unique_violation : Exn :=
  Failure "prisma" "A unique constraint would be violated on User. Details: Field name = email".

Definition has_user_id (i : string) (u : User.t) : bool := String.eqb (User.id u) i.
Definition has_user_email (e : string) (u : User.t) : bool := String.eqb (User.email u) e.
Definition has_item_id (i : string) (x : Item.t) : bool := String.eqb (Item.id x) i.
Definition has_cartItem_id (i : string) (c : CartItem.t) : bool :=
  String.eqb (CartItem.id c) i.

(** where: { user: { id: u }, item: { id: i } } *)
Definition in_cart (u i : string) (c : CartItem.t) : bool :=
  String.eqb (CartItem.user c) u && String.eqb (CartItem.item c) i.

(** where: { resetToken: tok, resetTokenExpiry_gte: bound } *)
Definition reset_pending (tok : string) (bound : Z) (u : User.t) : bool :=
  match User.resetToken u, User.resetTokenExpiry u with
  | Some t, Some e => String.eqb t tok && (bound <=? e)%Z
  | _, _ => false
  end.

(** A cart line as the selection [cart { id quantity item { ... } }] returns
    it: the item is [null] when the row it points to is gone. *)
Definition CartLine : Type := CartItem.t * option Item.t.

Definition cart_of (d : Db) (u : string) : list CartLine :=
  (λ c, (c, List.find (has_item_id (CartItem.item c)) (items d)))
    <$> List.filter (λ c, String.eqb (CartItem.user c) u) (cartItems d).

Section Client.
Context `{Externals}.

(** query.user({ where: { id } }) and query.user({ where: { email } }) *)
Definition query_user_by_id (i : string) : Async (option User.t) :=
  query (λ d, List.find (has_user_id i) (users d)).
Definition query_user_by_email (e : string) : Async (option User.t) :=
  query (λ d, List.find (has_user_email e) (users d)).

(** query.user({ where: { id } }, `{ id name email cart { ... } }`) *)
Definition query_user_with_cart (i : string)
  : Async (option (User.t * list CartLine)) :=
  query (λ d, (λ u, (u, cart_of d i)) <$> List.find (has_user_id i) (users d)).

(** query.users({ where }) *)
Definition query_users (p : User.t → bool) : Async (list User.t) :=
  query (λ d, List.filter p (users d)).

Definition query_item (i : string) : Async (option Item.t) :=
  query (λ d, List.find (has_item_id i) (items d)).

Definition query_cartItem (i : string) : Async (option CartItem.t) :=
  query (λ d, List.find (has_cartItem_id i) (cartItems d)).

Definition query_cartItems (u i : string) : Async (list CartItem.t) :=
  query (λ d, List.filter (in_cart u i) (cartItems d)).

(** mutation.createUser({ data }) *)
Definition mutation_createUser (data : Obj) : Async User.t :=
  mutation (λ d,
    match User.create (new_id (User.id <$> users d)) data with
    | Some u =>
        if existsb (has_user_email (User.email u)) (users d)
        then (Rejected unique_violation, d)
        else (Resolved u, mkDb (users d ++ [u]) (items d) (cartItems d))
    | None => (Rejected (invalid_input "UserCreateInput"), d)
    end).

(** mutation.updateUser({ where, data }): the [where] clause names one row,
    [data] is applied to it. *)
Definition mutation_updateUser (whr : User.t → bool) (data : User.t → User.t)
  : Async User.t :=
  mutation (λ d,
    match update_first whr data (users d) with
    | Some (u, l) => (Resolved u, mkDb l (items d) (cartItems d))
    | None => (Rejected (no_node "User"), d)
    end).

(** A [connect] in an update payload must name an existing user. *)
Definition connects (d : Db) (data : Obj) : bool :=
  match data !! "user" with
  | Some (VConnect u) => existsb (has_user_id u) (users d)
  | _ => true
  end.

(** mutation.updateItem({ data, where: { id } }) *)
Definition mutation_updateItem (data : Obj) (where_id : option Value)
  : Async Item.t :=
  mutation (λ d,
    match where_id with
    | Some (VStr i) =>
        if Item.valid_update data && connects d data then
          match update_first (has_item_id i) (Item.patch data) (items d) with
          | Some (x, l) => (Resolved x, mkDb (users d) l (cartItems d))
          | None => (Rejected (no_node "Item"), d)
          end
        else (Rejected (invalid_input "ItemUpdateInput"), d)
    | _ => (Rejected (invalid_input "ItemWhereUniqueInput"), d)
    end).

(** mutation.createItem({ data }) *)
Definition mutation_createItem (data : Obj) : Async Item.t :=
  mutation (λ d,
    match Item.create (new_id (Item.id <$> items d)) data with
    | Some x =>
        if existsb (has_user_id (Item.user x)) (users d)
        then (Resolved x, mkDb (users d) (items d ++ [x]) (cartItems d))
        else (Rejected (no_node "User"), d)
    | None => (Rejected (invalid_input "ItemCreateInput"), d)
    end).

(** mutation.deleteItem({ where: { id } }) *)
Definition mutation_deleteItem (i : string) : Async Item.t :=
  mutation (λ d,
    match remove_first (has_item_id i) (items d) with
    | Some (x, l) => (Resolved x, mkDb (users d) l (cartItems d))
    | None => (Rejected (no_node "Item"), d)
    end).

(** mutation.updateCartItem({ where: { id }, data: { quantity } }) *)
Definition mutation_updateCartItem (i : string) (q : Z) : Async CartItem.t :=
  mutation (λ d,
    match update_first (has_cartItem_id i) (CartItem.set_quantity q) (cartItems d) with
    | Some (c, l) => (Resolved c, mkDb (users d) (items d) l)
    | None => (Rejected (no_node "CartItem"), d)
    end).

(** mutation.createCartItem({ data: { user: { connect: { id: u } },
                                       item: { connect: { id: i } } } }) *)
Definition mutation_createCartItem (u i : string) : Async CartItem.t :=
  mutation (λ d,
    match List.find (has_user_id u) (users d), List.find (has_item_id i) (items d) with
    | Some _, Some _ =>
        let c := CartItem.mk (new_id (CartItem.id <$> cartItems d))
                             CartItem_default_quantity u i in
        (Resolved c, mkDb (users d) (items d) (cartItems d ++ [c]))
    | None, _ => (Rejected (no_node "User"), d)
    | _, None => (Rejected (no_node "Item"), d)
    end).

(** mutation.deleteCartItem({ where: { id } }) *)
Definition mutation_deleteCartItem (i : string) : Async CartItem.t :=
  mutation (λ d,
    match remove_first (has_cartItem_id i) (cartItems d) with
    | Some (c, l) => (Resolved c, mkDb (users d) (items d) l)
    | None => (Rejected (no_node "CartItem"), d)
    end).

(** ctx.response.cookie(name, value, { httpOnly, maxAge }) *)
Definition response_cookie (name value : string) (httpOnly : bool) (maxAge : Z)
  : Async unit :=
  emit (SetCookie name value httpOnly maxAge).

(** await transport.sendMail(m) *)
Definition sendMail (m : Mail) : Async Receipt :=
  _ ← emit (SendMail m); await (transport_sendMail m).

(** await stripe.charges.create(c) *)
Definition charges_create (c : ChargeRequest) : Async Receipt :=
  _ ← emit (StripeCharge c); await (stripe_charges_create c).
End Client.

(** Modelled from the spec: [hasPermission] is imported from [../utils],
    outside the resolver file.  Spec 4.2: it passes if the user's permission
    set intersects [permissionsNeeded], otherwise it fails with an
    [AuthError]; it is called for that failure only. *)
Definition hasPermission (user : User.t) (permissionsNeeded : list string)
  : Outcome unit :=
  if some_included (User.permissions user) permissionsNeeded
  then Resolved tt
  else Rejected (Error insufficient_permissions).

(** ** Arguments and results *)

Module SigninArgs.
Record t := mk { email : string; password : string }.
End SigninArgs.

Module ResetArgs.
Record t := mk { resetToken : string; password : string; confirmPassword : string }.
End ResetArgs.

Module PermissionArgs.
Record t := mk { userId : string; permissions : list string }.
End PermissionArgs.

Record SuccessMessage := mkMessage { message : string }.

(** ** The resolvers *)

(** The callback of the [reduce] in [createOrder], folded from the left over
    the cart; reading [price] off a [null] item throws. *)
Fixpoint reduce_cart (tally : Z) (cart : list CartLine) : Outcome Z :=
  match cart with
  | [] => Resolved tally
  | (cartItem, Some item) :: rest =>
      reduce_cart (js_add tally (js_mul (Item.price item) (CartItem.quantity cartItem)))
                  rest
  | (_, None) :: _ => Rejected (TypeError "Cannot read property 'price' of null")
  end.

Section Mutations.
Context `{Externals}.

(** The [data] of the [createItem] call: [{ user: { connect: { id } },
    ...args }].  The spread comes last, so a field of [args] replaces the
    field of the same name written before it. *)
Definition createItem_data (userId : string) (args : Obj) : Obj :=
  args ∪ {[ "user" := VConnect userId ]}.

Definition createItem (args : Obj) (ctx : Ctx) : Async Item.t :=
  match signed_in ctx with
  | None => throw (Error "You must be logged in to do that!")
  | Some userId =>
      item ← mutation_createItem (createItem_data userId args);
      mret item
  end.

Definition signout (ctx : Ctx) : Async SuccessMessage :=
  _ ← emit (ClearCookie "token");
  mret (mkMessage "Goodbye!").

Definition updateItem (args : Obj) (ctx : Ctx) : Async Item.t :=
  (* First take a copy of the updates *)
  let updates := args in
  (* Remove the ID from the updates *)
  let updates := delete "id" updates in
  (* Run the update method *)
  mutation_updateItem updates (args !! "id").

Definition deleteItem (args_id : string) (ctx : Ctx) : Async Item.t :=
  (* 1. Find the item *)
  item ← query_item args_id;
  match item with
  | None => throw (TypeError "Cannot read property 'user' of null")
  | Some item =>
      (* 2. Check if they own that item, or have the permissions *)
      let ownsItem := is_caller (Item.user item) ctx in
      match Request.user (request ctx) with
      | None => throw (TypeError "Cannot read property 'permissions' of undefined")
      | Some user =>
          let hasPermissions :=
            some_included (User.permissions user) ["ADMIN"; "ITEMDELETE"] in
          if negb ownsItem && negb hasPermissions
          then throw (Error "You don't have permission to do that!")
          else
            (* 3. Delete it! *)
            mutation_deleteItem args_id
      end
  end.

(** The [data] of the [createUser] call: [{ ...args, password, permissions:
    { set: ['USER'] } }], where [args.email] has been lowercased in place. *)
Definition signup_data (email password : string) (args : Obj) : Obj :=
  let args := <["email" := VStr (toLowerCase email)]> args in
  let password := bcrypt_hash password 10 in
  <["permissions" := VSet ["USER"]]> (<["password" := VStr password]> args).

Definition signup (args : Obj) (ctx : Ctx) : Async User.t :=
  match args !! "email" with
  | Some (VStr email) =>
      match args !! "password" with
      | Some (VStr password) =>
          (* Create the user in the database *)
          user ← mutation_createUser (signup_data email password args);
          (* Create the JWT token for them *)
          let token := jwt_sign (User.id user) APP_SECRET in
          (* We set the JWT as a cookie on the response *)
          _ ← response_cookie "token" token true (1000 * 60 * 60 * 24 * 365);
          (* Finally we return the user to the browser *)
          mret user
      | _ => throw (Failure "bcrypt" "Illegal arguments")
      end
  | None | Some VNull => throw (TypeError "Cannot read property 'toLowerCase' of undefined")
  | Some _ => throw (TypeError "args.email.toLowerCase is not a function")
  end.

Definition signin (args : SigninArgs.t) (ctx : Ctx) : Async User.t :=
  let email := SigninArgs.email args in
  let password := SigninArgs.password args in
  (* 1. Check if there is a user with that email *)
  user ← query_user_by_email email;
  match user with
  | None => throw (Error (no_such_user +:+ email))
  | Some user =>
      (* 2. Check if their password is correct *)
      let valid := bcrypt_compare password (User.password user) in
      if negb valid then throw (Error "Invalid Password!")
      else
        (* 3. Generate the JWT Token *)
        let token := jwt_sign (User.id user) APP_SECRET in
        (* 4. Set the cookie with the token *)
        _ ← response_cookie "token" token true (1000 * 60 * 60 * 24 * 365);
        (* 5. Return the user *)
        mret user
  end.

Definition reset_mail_body (resetToken : string) : string :=
  "Your Password Reset Token is here!" +:+ nl +:+ nl +:+ nl
  +:+ "        <a href=" +:+ dquote +:+ FRONTEND_URL +:+ "/reset?resetToken="
  +:+ resetToken +:+ dquote +:+ ">" +:+ nl
  +:+ "          Click Here to Reset" +:+ nl
  +:+ "        </a>".

Definition requestReset (args_email : string) (ctx : Ctx) : Async SuccessMessage :=
  (* 1. Check if this is a real user *)
  user ← query_user_by_email args_email;
  match user with
  | None => throw (Error (no_such_user +:+ args_email))
  | Some user =>
      (* 2. Set a reset token and expiry on that user *)
      let resetToken := randomBytes_hex 20 in
      let resetTokenExpiry := (Date_now ctx + 3600000)%Z in
      res ← mutation_updateUser (has_user_email args_email)
              (User.set_reset (Some resetToken) (Some resetTokenExpiry));
      (* 3. Email them that reset token *)
      mailRes ← sendMail (mkMail "zain.fathoni@gmail.com" (User.email user)
                            "Your Password Reset Token"
                            (makeANiceEmail (reset_mail_body resetToken)));
      (* 4. Return the message *)
      mret (mkMessage "Thanks!")
  end.

Definition resetPassword (args : ResetArgs.t) (ctx : Ctx) : Async User.t :=
  (* 1. Check if the passwords match *)
  if negb (String.eqb (ResetArgs.password args) (ResetArgs.confirmPassword args))
  then throw (Error "Yo Passwords don't match!")
  else
    (* 2. Check if it's a legit reset token *)
    (* 3. Check if it's expired *)
    found ← query_users (reset_pending (ResetArgs.resetToken args)
                                       (Date_now ctx - 3600000));
    match head found with
    | None => throw (Error "This token is either invalid or expired!")
    | Some user =>
        (* 4. Hash their new password *)
        let password := bcrypt_hash (ResetArgs.password args) 10 in
        (* 5. Save the new password to the user and remove old resetToken fields *)
        updatedUser ← mutation_updateUser (has_user_email (User.email user))
                        (λ u, User.set_reset None None (User.set_password password u));
        (* 6. Generate JWT *)
        let token := jwt_sign (User.id updatedUser) APP_SECRET in
        (* 7. Set the JWT cookie *)
        _ ← response_cookie "token" token true (1000 * 60 * 60 * 24 * 365);
        (* 8. Return the new user *)
        mret updatedUser
    end.

Definition updatePermissions (args : PermissionArgs.t) (ctx : Ctx) : Async User.t :=
  (* 1. Check if they are logged in *)
  match signed_in ctx with
  | None => throw (Error "You must be logged in!")
  | Some userId =>
      (* 2. Query the current user *)
      currentUser ← query_user_by_id userId;
      match currentUser with
      | None => throw (TypeError "Cannot read property 'permissions' of null")
      | Some currentUser =>
          (* 3. Check if they have permissions to do this *)
          _ ← await (hasPermission currentUser ["ADMIN"; "PERMISSIONUPDATE"]);
          (* 4. Update the permissions *)
          mutation_updateUser (has_user_id (PermissionArgs.userId args))
            (User.set_permissions (PermissionArgs.permissions args))
      end
  end.

Definition addToCart (args_id : string) (ctx : Ctx) : Async CartItem.t :=
  (* 1. Make sure they are signed in *)
  match signed_in ctx with
  | None => throw (Error "You must be signed in soon")
  | Some userId =>
      (* 2. Query the users current cart *)
      found ← query_cartItems userId args_id;
      (* 3. Check if that item is already in their cart and increment by 1 if it is *)
      match head found with
      | Some existingCartItem =>
          _ ← console_log "This item is already in their cart";
          mutation_updateCartItem (CartItem.id existingCartItem)
                                  (CartItem.quantity existingCartItem + 1)
      | None =>
          (* 4. If it's not, create a fresh CartItem for that user! *)
          mutation_createCartItem userId args_id
      end
  end.

(** [addToCart] step by step.  Its statements up to the first [await]ed
    answer (steps 1 and 2) end with what the caller's cart was found to
    hold; its remaining statements (steps 3 and 4) write accordingly.
    Between the two, other calls may run. *)
Inductive CartPlan :=
| Increment (existingCartItem : CartItem.t)
| Create (userId itemId : string).

Definition addToCart_lookup (args_id : string) (ctx : Ctx) : Async CartPlan :=
  (* 1. Make sure they are signed in *)
  match signed_in ctx with
  | None => throw (Error "You must be signed in soon")
  | Some userId =>
      (* 2. Query the users current cart *)
      found ← query_cartItems userId args_id;
      match head found with
      | Some existingCartItem => mret (Increment existingCartItem)
      | None => mret (Create userId args_id)
      end
  end.

Definition addToCart_write (plan : CartPlan) : Async CartItem.t :=
  match plan with
  | Increment existingCartItem =>
      (* 3. Check if that item is already in their cart and increment by 1 if it is *)
      _ ← console_log "This item is already in their cart";
      mutation_updateCartItem (CartItem.id existingCartItem)
                              (CartItem.quantity existingCartItem + 1)
  | Create userId itemId =>
      (* 4. If it's not, create a fresh CartItem for that user! *)
      mutation_createCartItem userId itemId
  end.

Definition removeFromCart (args_id : string) (ctx : Ctx) : Async CartItem.t :=
  (* 1. Find the cart item *)
  cartItem ← query_cartItem args_id;
  match cartItem with
  | None =>
      (* 2. Make sure we found an item *)
      throw (Error "No CartItem Found!")
  | Some cartItem =>
      (* 3. Make sure they own that cart item *)
      if negb (is_caller (CartItem.user cartItem) ctx)
      then throw (Error "Cheatin huhhhh")
      else
        (* 4. Delete that cart item *)
        mutation_deleteCartItem args_id
  end.

Definition createOrder (args_token : string) (ctx : Ctx) : Async unit :=
  (* 1. Query the current user and make sure they are signed in *)
  match signed_in ctx with
  | None => throw (Error "You must be signed in to complete this order.")
  | Some userId =>
      user ← query_user_with_cart userId;
      match user with
      | None => throw (TypeError "Cannot read property 'cart' of null")
      | Some (_, cart) =>
          (* 2. Recalculate the total for the price *)
          amount ← await (reduce_cart 0 cart);
          _ ← console_log ("Going to charge for a total of " +:+ pretty amount);
          (* 3. Create the stripe charge (turn token into $$$) *)
          charge ← charges_create (mkCharge amount "USD" args_token);
          mret tt
      end
  end.
End Mutations.

(** ** Shapes of the tables

    Properties of a database that the resolvers are shown to keep. *)

(** Every stored email is its own lowercase form. *)
Definition lowercase_emails (d : Db) : Prop :=
  Forall (λ u, toLowerCase (User.email u) = User.email u) (users d).

(** No two users share an email. *)
Definition unique_emails (d : Db) : Prop := NoDup (User.email <$> users d).

(** No two cart lines share an id, and a user has at most one line per
    item. *)
Definition cart_key (c : CartItem.t) : string * string :=
  (CartItem.user c, CartItem.item c).

Definition cart_unique (d : Db) : Prop :=
  NoDup (CartItem.id <$> cartItems d) ∧ NoDup (cart_key <$> cartItems d).

(** where: { resetToken: tok }, whatever the expiry. *)
Definition has_token (tok : string) (u : User.t) : bool :=
  match User.resetToken u with
  | Some t => String.eqb t tok
  | None => false
  end.

(** An exception raised by a statement of the resolver file itself, a
    [throw] or a failed property read, as opposed to the rejection of a
    collaborator's promise. *)
Definition raised_by_resolver (e : Exn) : bool :=
  match e with
  | Error _ | TypeError _ => true
  | Failure _ _ => false
  end.

(** What [requestReset], [resetPassword] and [updatePermissions] leave alone
    in a user row. *)
Definition identity_of (u : User.t) : string * string * string :=
  (User.id u, User.name u, User.email u).

(** ** The order total, as the specification words it

    Spec 4.6: total = the sum of item.price × quantity over the cart lines. *)

Definition line_total (l : CartLine) : Z :=
  match l with
  | (cartItem, Some item) => Item.price item * CartItem.quantity cartItem
  | (_, None) => 0
  end.

Definition cart_total (cart : list CartLine) : Z :=
  foldr (λ l acc, line_total l + acc)%Z 0%Z cart.

(** Every product and every running total of the fold that starts from
    [tally] is a safe integer: nothing is rounded on the way. *)
Fixpoint stays_exact (tally : Z) (cart : list CartLine) : bool :=
  match cart with
  | [] => true
  | (cartItem, Some item) :: rest =>
      let line := (Item.price item * CartItem.quantity cartItem)%Z in
      safe_integer line && safe_integer (tally + line)
      && stays_exact (tally + line) rest
  | (_, None) :: _ => true
  end.


(** ** A concrete instance

    Collaborators and a small shop on which the resolvers can be run. *)

Module Sample.
Definition externals : Externals := {|
  bcrypt_hash p c := "$2a$" +:+ pretty c +:+ "$" +:+ p;
  bcrypt_compare p h := String.eqb ("$2a$10$" +:+ p) h;
  jwt_sign uid secret := uid +:+ "." +:+ secret;
  APP_SECRET := "s3cret";
  FRONTEND_URL := "http://localhost:7777";
  randomBytes_hex n := "5f1d09a47c3e8b6620aa5f1d09a47c3e8b6620aa";
  makeANiceEmail t := "<div>" +:+ t +:+ "</div>";
  transport_sendMail m := Resolved "250 OK";
  stripe_charges_create c := Resolved "ch_1";
  new_id := fresh;
  new_id_fresh := infinite_is_fresh
|}.

(** The same collaborators, with a mail server that refuses connections. *)
Definition mail_down : Externals := {|
  bcrypt_hash := @bcrypt_hash externals;
  bcrypt_compare := @bcrypt_compare externals;
  jwt_sign := @jwt_sign externals;
  APP_SECRET := @APP_SECRET externals;
  FRONTEND_URL := @FRONTEND_URL externals;
  randomBytes_hex := @randomBytes_hex externals;
  makeANiceEmail := @makeANiceEmail externals;
  transport_sendMail m := Rejected (Failure "smtp" "connect ECONNREFUSED");
  stripe_charges_create := @stripe_charges_create externals;
  new_id := fresh;
  new_id_fresh := infinite_is_fresh
|}.

Definition alice : User.t :=
  User.mk "u1" "Alice" "alice@x.org" "$2a$10$wonderland" None None ["USER"].
Definition bob : User.t :=
  User.mk "u2" "Bob" "bob@x.org" "$2a$10$builder" (Some "tok") (Some 5000%Z)
          ["USER"; "ADMIN"].

Definition A : Item.t := Item.mk "A" "Shoes" "Running shoes" "a.png" 500 "u1".
Definition B : Item.t := Item.mk "B" "Hat" "Felt hat" "b.png" 300 "u2".

Definition shop : Db := mkDb [alice; bob] [A; B] [].
Definition world : World := mkWorld shop [].

(** Alice's cart holds two of A and one of B. *)
Definition shop_with_cart : Db :=
  mkDb [alice; bob] [A; B] [CartItem.mk "c1" 2 "u1" "A"; CartItem.mk "c2" 1 "u1" "B"].

Definition as_alice (now : Z) : Ctx := mkCtx (Request.mk (Some "u1") (Some alice)) now.
Definition as_bob (now : Z) : Ctx := mkCtx (Request.mk (Some "u2") (Some bob)) now.
Definition anonymous (now : Z) : Ctx := mkCtx (Request.mk None None) now.
End Sample.

(** * Properties *)

(** ** Lists *)

Lemma find_of_existsb {A} (p : A → bool) (l : list A) :
  existsb p l = true → ∃ x, List.find p l = Some x.
Proof.
  induction l as [|a l IH]; simpl; [discriminate|].
  destruct (p a); [eauto | exact IH].
Qed.

Lemma find_Some_split {A} (p : A → bool) (l : list A) (x : A) :
  List.find p l = Some x →
  p x = true ∧ ∃ l1 l2, l = l1 ++ x :: l2 ∧ Forall (λ y, p y = false) l1.
Proof.
  induction l as [|a l IH]; simpl; [discriminate|].
  destruct (p a) eqn:Hp.
  - intros [= ->]. split; [done|]. by exists [], l.
  - intros Hf. destruct (IH Hf) as (Hx & l1 & l2 & -> & Hl1).
    split; [done|]. exists (a :: l1), l2. split; [done|]. by constructor.
Qed.

Lemma update_first_split {A} (p : A → bool) (f : A → A) (l1 l2 : list A) (x : A) :
  Forall (λ y, p y = false) l1 → p x = true →
  update_first p f (l1 ++ x :: l2) = Some (f x, l1 ++ f x :: l2).
Proof.
  intros Hl1 Hx. induction Hl1 as [|a l1 Ha _ IH]; simpl.
  - by rewrite Hx.
  - by rewrite Ha, IH.
Qed.

Lemma update_first_find {A} (p : A → bool) (f : A → A) (l : list A) (x : A) :
  List.find p l = Some x →
  ∃ l1 l2, l = l1 ++ x :: l2 ∧ update_first p f l = Some (f x, l1 ++ f x :: l2).
Proof.
  intros Hf. destruct (find_Some_split _ _ _ Hf) as (Hx & l1 & l2 & -> & Hl1).
  exists l1, l2. split; [done|]. by apply update_first_split.
Qed.

Lemma update_first_None {A} (p : A → bool) (f : A → A) (l : list A) :
  List.find p l = None → update_first p f l = None.
Proof.
  induction l as [|a l IH]; simpl; [done|].
  destruct (p a); [discriminate|]. intros Hf. by rewrite IH.
Qed.

Lemma remove_first_find {A} (p : A → bool) (l : list A) (x : A) :
  List.find p l = Some x →
  ∃ l1 l2, l = l1 ++ x :: l2 ∧ remove_first p l = Some (x, l1 ++ l2).
Proof.
  induction l as [|a l IH]; simpl; [discriminate|].
  destruct (p a) eqn:Hp.
  - intros [= ->]. by exists [], l.
  - intros Hf. destruct (IH Hf) as (l1 & l2 & -> & Hr).
    exists (a :: l1), l2. split; [done|]. by rewrite Hr.
Qed.

Lemma filter_nil_Forall {A} (p : A → bool) (l : list A) :
  List.filter p l = [] → Forall (λ y, p y = false) l.
Proof.
  induction l as [|a l IH]; simpl; [constructor|].
  destruct (p a) eqn:Hp; [discriminate|]. intros Hl. constructor; auto.
Qed.

Lemma filter_Forall_nil {A} (p : A → bool) (l : list A) :
  Forall (λ y, p y = false) l → List.filter p l = [].
Proof.
  induction 1 as [|a l Ha _ IH]; simpl; [done|]. by rewrite Ha.
Qed.

(** Running a resolver: the monad's operations are unfolded and the known
    results of the database reads are rewritten in. *)
Ltac run :=
  unfold query_user_by_id, query_user_by_email, query_user_with_cart, query_users,
         query_item, query_cartItem, query_cartItems, mutation_createUser,
         mutation_updateUser, mutation_updateItem, mutation_deleteItem,
         mutation_updateCartItem, mutation_createCartItem, mutation_deleteCartItem,
         response_cookie, sendMail, charges_create, console_log;
  unfold mbind, mret, Async_bind, Async_ret, throw, emit, await, query, mutation;
  simpl.

(** ** addToCart *)

Section AddToCart.
Context `{Externals}.

Lemma new_cartItem_id_unused (rows : list CartItem.t) :
  Forall (λ c, has_cartItem_id (new_id (CartItem.id <$> rows)) c = false) rows.
Proof.
  apply Forall_forall. intros c Hc. unfold has_cartItem_id.
  apply String.eqb_neq. intros Heq.
  apply (new_id_fresh (CartItem.id <$> rows)). rewrite <- Heq.
  apply list_elem_of_fmap. by exists c.
Qed.

(** C1.  A signed-in user [u] adds an item [i] that is not in their cart
    yet, twice in a row.  The first call creates one CartItem row, of
    quantity 1; the second call creates no row, it returns that same row
    (same id, user and item) with quantity 2.  Afterwards the cart table is
    the old table with that single row of quantity 2 added, and it is the
    only row for [(u, i)]. *)
Theorem addToCart_twice (i u : string) (ctx : Ctx) (w : World) :
  signed_in ctx = Some u →
  existsb (has_user_id u) (users (db w)) = true →
  existsb (has_item_id i) (items (db w)) = true →
  List.filter (in_cart u i) (cartItems (db w)) = [] →
  ∃ first second w1 w2,
    addToCart i ctx w = (Resolved first, w1)
    ∧ CartItem.quantity first = 1%Z
    ∧ CartItem.user first = u ∧ CartItem.item first = i
    ∧ cartItems (db w1) = cartItems (db w) ++ [first]
    ∧ addToCart i ctx w1 = (Resolved second, w2)
    ∧ CartItem.id second = CartItem.id first
    ∧ CartItem.quantity second = 2%Z
    ∧ CartItem.quantity second = (CartItem.quantity first + 1)%Z
    ∧ CartItem.user second = u ∧ CartItem.item second = i
    ∧ cartItems (db w2) = cartItems (db w) ++ [second]
    ∧ List.filter (in_cart u i) (cartItems (db w2)) = [second].
Proof.
  destruct w as [[us its rows] effs]; simpl.
  intros Hu Hus Hit Hnone.
  destruct (find_of_existsb _ _ Hus) as [usr Husr].
  destruct (find_of_existsb _ _ Hit) as [itm Hitm].
  pose (row := CartItem.mk (new_id (CartItem.id <$> rows)) CartItem_default_quantity u i).
  pose (row2 := CartItem.set_quantity (CartItem.quantity row + 1) row).
  assert (Hsel : List.filter (in_cart u i) (rows ++ [row]) = [row]).
  { rewrite List.filter_app, Hnone. simpl. unfold in_cart, row; simpl.
    by rewrite !String.eqb_refl. }
  assert (Hupd : update_first (has_cartItem_id (CartItem.id row))
                   (CartItem.set_quantity (CartItem.quantity row + 1)) (rows ++ [row])
                 = Some (row2, rows ++ [row2])).
  { apply update_first_split.
    - apply new_cartItem_id_unused.
    - apply String.eqb_refl. }
  exists row, row2, (mkWorld (mkDb us its (rows ++ [row])) effs),
    (mkWorld (mkDb us its (rows ++ [row2]))
             (effs ++ [ConsoleLog "This item is already in their cart"])).
  split.
  { unfold addToCart. rewrite Hu. run. rewrite Hnone. simpl.
    by rewrite Husr, Hitm. }
  do 4 (split; [reflexivity|]).
  split.
  { unfold addToCart. rewrite Hu. run. rewrite Hsel. simpl.
    change (new_id (CartItem.id <$> rows)) with (CartItem.id row).
    change CartItem_default_quantity with (CartItem.quantity row).
    by rewrite Hupd. }
  do 6 (split; [reflexivity|]).
  simpl. rewrite List.filter_app, Hnone. simpl.
  unfold in_cart; simpl. by rewrite !String.eqb_refl.
Qed.
End AddToCart.

(** Alice adds item A twice to her empty cart: one line, first of quantity
    1, then of quantity 2. *)
Lemma addToCart_twice_witness :
  signed_in (Sample.as_alice 0) = Some "u1"
  ∧ ∃ id w1 w2,
      addToCart (H := Sample.externals) "A" (Sample.as_alice 0) Sample.world
        = (Resolved (CartItem.mk id 1 "u1" "A"), w1)
      ∧ addToCart (H := Sample.externals) "A" (Sample.as_alice 0) w1
        = (Resolved (CartItem.mk id 2 "u1" "A"), w2)
      ∧ cartItems (db w2) = [CartItem.mk id 2 "u1" "A"].
Proof.
  split; [reflexivity|].
  destruct (addToCart_twice (H := Sample.externals) "A" "u1" (Sample.as_alice 0)
              Sample.world eq_refl eq_refl eq_refl eq_refl)
    as (first & second & w1 & w2 & Hrun1 & Hq1 & Hu1 & Hi1 & _ & Hrun2
        & Hid & Hq2 & _ & Hu2 & Hi2 & Hrows & _).
  exists (CartItem.id first), w1, w2.
  destruct first as [id1 q1 u1 i1], second as [id2 q2 u2 i2]. simpl in *.
  subst. by repeat split.
Defined.

(** ** resetPassword *)

Lemma head_filter_Some {A} (p : A → bool) (l : list A) (x : A) :
  head (List.filter p l) = Some x → x ∈ l ∧ p x = true.
Proof.
  induction l as [|a l IH]; simpl; [discriminate|].
  destruct (p a) eqn:Hp; simpl.
  - intros [= ->]. split; [left | done].
  - intros Hx. destruct (IH Hx). split; [by right | done].
Qed.

Lemma head_filter_None {A} (p : A → bool) (l : list A) :
  Forall (λ y, p y = false) l → head (List.filter p l) = None.
Proof. intros Hl. by rewrite (filter_Forall_nil _ _ Hl). Qed.

Lemma head_filter_Exists {A} (p : A → bool) (l : list A) :
  Exists (λ y, p y = true) l → ∃ x, head (List.filter p l) = Some x.
Proof.
  induction 1 as [a l Ha | a l _ IH]; simpl.
  - rewrite Ha. by exists a.
  - destruct (p a); simpl; [by exists a | exact IH].
Qed.

(** Emails are unique in the user table, so a row is the one its own email
    names. *)
Lemma find_by_own_email (l : list User.t) (u : User.t) :
  NoDup (User.email <$> l) → u ∈ l →
  List.find (has_user_email (User.email u)) l = Some u.
Proof.
  induction l as [|a l IH]; simpl; intros Hnd Hu.
  - by apply elem_of_nil in Hu.
  - apply NoDup_cons in Hnd as [Ha Hnd]. unfold has_user_email at 1.
    destruct (String.eqb_spec (User.email a) (User.email u)) as [Heq | Hne].
    + apply elem_of_cons in Hu as [-> | Hu]; [done|].
      exfalso. apply Ha. rewrite Heq. apply list_elem_of_fmap. by exists u.
    + apply elem_of_cons in Hu as [-> | Hu]; [done | by apply IH].
Qed.

(** What the [where] clause of [resetPassword] asks of a row: the token is
    the supplied one and the stored expiry is no earlier than one hour before
    the time of the call. *)
Lemma reset_pending_true (tok : string) (bound : Z) (u : User.t) :
  reset_pending tok bound u = true ↔
  User.resetToken u = Some tok
  ∧ ∃ e, User.resetTokenExpiry u = Some e ∧ (bound ≤ e)%Z.
Proof.
  unfold reset_pending.
  destruct (User.resetToken u) as [t|], (User.resetTokenExpiry u) as [e|];
    try (split; [discriminate | by intros [? (? & ? & ?)]]).
  rewrite andb_true_iff, String.eqb_eq, Z.leb_le. split.
  - intros [-> Hle]. eauto.
  - intros [[= ->] (e' & [= ->] & Hle)]. done.
Qed.

Section ResetPassword.
Context `{Externals}.

(** C2.  [resetPassword] on a user table with unique emails.
    - When [password] differs from [confirmPassword] it fails with
      "Yo Passwords don't match!" (a ValidationError) and changes nothing.
    - When they agree and no row carries the supplied token with an expiry
      of at least [Date.now() - 3600000], it fails with "This token is
      either invalid or expired!" (an AuthError) and changes nothing.
    - It succeeds only when the passwords agree and such a row exists; the
      row is then replaced by itself with [resetToken] and
      [resetTokenExpiry] null and with the hash of the supplied password as
      its password, and that row is what is returned.
    - And it does succeed whenever the passwords agree and such a row
      exists. *)
Theorem resetPassword_spec (args : ResetArgs.t) (ctx : Ctx) (w : World) :
  NoDup (User.email <$> users (db w)) →
  let pending :=
    reset_pending (ResetArgs.resetToken args) (Date_now ctx - 3600000) in
  let hashed := bcrypt_hash (ResetArgs.password args) 10 in
  (ResetArgs.password args ≠ ResetArgs.confirmPassword args →
     resetPassword args ctx w = (Rejected (Error "Yo Passwords don't match!"), w))
  ∧ error_kind (Error "Yo Passwords don't match!") = Some ValidationError
  ∧ (ResetArgs.password args = ResetArgs.confirmPassword args →
     Forall (λ u, pending u = false) (users (db w)) →
     resetPassword args ctx w
     = (Rejected (Error "This token is either invalid or expired!"), w))
  ∧ error_kind (Error "This token is either invalid or expired!") = Some AuthError
  ∧ (∀ u w', resetPassword args ctx w = (Resolved u, w') →
       ResetArgs.password args = ResetArgs.confirmPassword args
       ∧ ∃ user l1 l2,
           users (db w) = l1 ++ user :: l2
           ∧ User.resetToken user = Some (ResetArgs.resetToken args)
           ∧ (∃ e, User.resetTokenExpiry user = Some e
                   ∧ (Date_now ctx - 3600000 ≤ e)%Z)
           ∧ u = User.set_reset None None (User.set_password hashed user)
           ∧ users (db w') = l1 ++ u :: l2
           ∧ User.resetToken u = None
           ∧ User.resetTokenExpiry u = None
           ∧ User.password u = hashed)
  ∧ (ResetArgs.password args = ResetArgs.confirmPassword args →
     Exists (λ u, pending u = true) (users (db w)) →
     ∃ u w', resetPassword args ctx w = (Resolved u, w')).
Proof.
  intros Hnd pending hashed.
  destruct w as [[us its rows] effs]; simpl in *.
  assert (Hok : ∀ user, head (List.filter pending us) = Some user →
            ∃ l1 l2, us = l1 ++ user :: l2 ∧
              update_first (has_user_email (User.email user))
                (λ u, User.set_reset None None (User.set_password hashed u)) us
              = Some (User.set_reset None None (User.set_password hashed user),
                      l1 ++ User.set_reset None None (User.set_password hashed user) :: l2)).
  { intros user Hhd. apply head_filter_Some in Hhd as [Hin _].
    apply (update_first_find _
             (λ u, User.set_reset None None (User.set_password hashed u))).
    by apply find_by_own_email. }
  split; [|split; [done|split; [|split; [done|split]]]].
  - intros Hne. unfold resetPassword.
    apply String.eqb_neq in Hne. by rewrite Hne.
  - intros Heq Hnone. unfold resetPassword.
    rewrite Heq, String.eqb_refl. run.
    fold pending. by rewrite (head_filter_None _ _ Hnone).
  - intros u w'. unfold resetPassword.
    destruct (String.eqb_spec (ResetArgs.password args)
                (ResetArgs.confirmPassword args)) as [Heq | Hne]; simpl;
      [|discriminate].
    run. fold pending.
    destruct (head (List.filter pending us)) as [user|] eqn:Hhd; [|discriminate].
    destruct (Hok user eq_refl) as (l1 & l2 & Hus & Hupd).
    unfold hashed in Hupd. simpl in *. rewrite Hupd. intros [= <- <-].
    split; [done|].
    apply head_filter_Some in Hhd as [_ Hp].
    apply reset_pending_true in Hp as [Htok Hexp].
    exists user, l1, l2. simpl. done.
  - intros Heq Hex. unfold resetPassword.
    rewrite Heq, String.eqb_refl. run. fold pending.
    destruct (head_filter_Exists _ _ Hex) as [user Hhd]. rewrite Hhd.
    destruct (Hok user Hhd) as (l1 & l2 & Hus & Hupd).
    unfold hashed in Hupd. simpl in *. rewrite <- Heq, Hupd. eauto.
Qed.
End ResetPassword.

Lemma resetPassword_spec_witness :
  NoDup (User.email <$> users (db Sample.world))
  ∧ ∃ u w',
      resetPassword (H := Sample.externals) (ResetArgs.mk "tok" "hunter2" "hunter2")
        (Sample.anonymous 1000) Sample.world = (Resolved u, w')
      ∧ User.id u = "u2"
      ∧ User.resetToken u = None
      ∧ User.resetTokenExpiry u = None
      ∧ User.password u = "$2a$10$hunter2".
Proof.
  assert (Hnd : NoDup (User.email <$> users (db Sample.world))) by compute_done.
  split; [exact Hnd|].
  destruct (resetPassword_spec (H := Sample.externals)
              (ResetArgs.mk "tok" "hunter2" "hunter2") (Sample.anonymous 1000)
              Sample.world Hnd) as (_ & _ & _ & _ & _ & Hdoes).
  destruct Hdoes as (u & w' & Hrun); [reflexivity | right; left; reflexivity |].
  exists u, w'. split; [exact Hrun|].
  vm_compute in Hrun. injection Hrun as <- _. repeat split.
Defined.

(** The window of [resetPassword] is anchored one hour before the time of the
    call: a token whose stored expiry (5000) lies a full hour in the past is
    still accepted, one millisecond later it is refused. *)
Example resetPassword_window :
  (∃ u w', resetPassword (H := Sample.externals) (ResetArgs.mk "tok" "n" "n")
             (Sample.anonymous 3605000) Sample.world = (Resolved u, w'))
  ∧ fst (resetPassword (H := Sample.externals) (ResetArgs.mk "tok" "n" "n")
           (Sample.anonymous 3605001) Sample.world)
    = Rejected (Error "This token is either invalid or expired!").
Proof. split; [eexists _, _|]; vm_compute; reflexivity. Qed.

(** ** signin *)

Section Signin.
Context `{Externals}.

(** C7.  [signin]:
    - an email no user row carries: it fails with "No such user found for
      email <email>" (a NotFoundError);
    - a known email with a password the hash comparison refuses: it fails
      with "Invalid Password!" (an AuthError);
    - a known email with a password the comparison accepts: it returns the
      stored user and issues the token signed over that user's id, as an
      http-only cookie.
    The database is never changed. *)
Theorem signin_spec (args : SigninArgs.t) (ctx : Ctx) (w : World) :
  let email := SigninArgs.email args in
  let password := SigninArgs.password args in
  let stored := List.find (has_user_email email) (users (db w)) in
  (stored = None →
     signin args ctx w = (Rejected (Error (no_such_user +:+ email)), w)
     ∧ error_kind (Error (no_such_user +:+ email)) = Some NotFoundError)
  ∧ (∀ user, stored = Some user →
       bcrypt_compare password (User.password user) = false →
       signin args ctx w = (Rejected (Error "Invalid Password!"), w)
       ∧ error_kind (Error "Invalid Password!") = Some AuthError)
  ∧ (∀ user, stored = Some user →
       bcrypt_compare password (User.password user) = true →
       signin args ctx w
       = (Resolved user,
          mkWorld (db w)
            (effects w ++ [SetCookie "token" (jwt_sign (User.id user) APP_SECRET)
                                     true 31536000000]))).
Proof.
  intros email password stored. subst stored. unfold signin. run.
  fold email password. split; [|split].
  - intros ->. split; [done|]. vm_compute. reflexivity.
  - intros user -> Hcmp. simpl. by rewrite Hcmp.
  - intros user -> Hcmp. simpl. by rewrite Hcmp.
Qed.
End Signin.

(** Alice signs in with her password, with a wrong one, and under an email
    nobody registered. *)
Lemma signin_spec_witness :
  signin (H := Sample.externals) (SigninArgs.mk "alice@x.org" "wonderland")
    (Sample.anonymous 0) Sample.world
  = (Resolved Sample.alice,
     mkWorld Sample.shop [SetCookie "token" "u1.s3cret" true 31536000000])
  ∧ signin (H := Sample.externals) (SigninArgs.mk "alice@x.org" "looking-glass")
      (Sample.anonymous 0) Sample.world
    = (Rejected (Error "Invalid Password!"), Sample.world)
  ∧ signin (H := Sample.externals) (SigninArgs.mk "Alice@x.org" "wonderland")
      (Sample.anonymous 0) Sample.world
    = (Rejected (Error "No such user found for email Alice@x.org"), Sample.world).
Proof.
  split; [|split].
  - apply (signin_spec (H := Sample.externals)
             (SigninArgs.mk "alice@x.org" "wonderland") (Sample.anonymous 0)
             Sample.world); reflexivity.
  - apply (signin_spec (H := Sample.externals)
             (SigninArgs.mk "alice@x.org" "looking-glass") (Sample.anonymous 0)
             Sample.world) with Sample.alice; reflexivity.
  - apply (signin_spec (H := Sample.externals)
             (SigninArgs.mk "Alice@x.org" "wonderland") (Sample.anonymous 0)
             Sample.world); reflexivity.
Defined.

(** ** createOrder *)

Lemma js_number_safe (z : Z) : safe_integer z = true → js_number z = z.
Proof. unfold safe_integer, js_number. by intros ->. Qed.

(** The left fold of the resolver computes the sum of the specification, as
    long as nothing is rounded on the way. *)
Lemma reduce_cart_total (cart : list CartLine) (tally : Z) :
  Forall (λ l, is_Some l.2) cart →
  stays_exact tally cart = true →
  reduce_cart tally cart = Resolved (tally + cart_total cart)%Z.
Proof.
  intros Hall. revert tally.
  induction Hall as [|[c o] cart [item Hitem] _ IH]; intros tally; simpl.
  - intros _. f_equal. lia.
  - simpl in Hitem. subst o.
    intros [[Hline Hsum]%andb_true_iff Hrest]%andb_true_iff.
    unfold js_add, js_mul. rewrite (js_number_safe _ Hline), (js_number_safe _ Hsum).
    rewrite (IH _ Hrest). f_equal. unfold cart_total. simpl. lia.
Qed.

(** A line whose item is gone makes the fold throw. *)
Lemma reduce_cart_dangling (cart : list CartLine) (tally : Z) :
  Exists (λ l, l.2 = None) cart →
  reduce_cart tally cart = Rejected (TypeError "Cannot read property 'price' of null").
Proof.
  intros Hex. revert tally.
  induction Hex as [[c o] cart Ho | [c [item|]] cart _ IH]; intros tally; simpl.
  - simpl in Ho. by subst o.
  - apply IH.
  - done.
Qed.

Section CreateOrder.
Context `{Externals}.

End CreateOrder.



(** An empty cart is charged 0. *)
Example createOrder_empty_cart :
  createOrder (H := Sample.externals) "tok_visa" (Sample.as_alice 0) Sample.world
  = (Resolved tt,
     mkWorld Sample.shop
       [ConsoleLog "Going to charge for a total of 0";
        StripeCharge (mkCharge 0 "USD" "tok_visa")]).
Proof. reflexivity. Qed.

(** ** removeFromCart *)

Section RemoveFromCart.
Context `{Externals}.

(** C4, as the code has it.  For every existing CartItem, [removeFromCart]
    deletes the row and returns it when the row's owner id is the caller's
    [userId]; for every other caller it fails with "Cheatin huhhhh" (an
    AuthError) and changes nothing.  The caller's permissions are not
    consulted: the outcome is the same whatever user record is attached to
    the request. *)
Theorem removeFromCart_owner_only (i : string) (ctx : Ctx) (w : World)
    (cartItem : CartItem.t) :
  List.find (has_cartItem_id i) (cartItems (db w)) = Some cartItem →
  (is_caller (CartItem.user cartItem) ctx = true →
     ∃ l1 l2, cartItems (db w) = l1 ++ cartItem :: l2
       ∧ removeFromCart i ctx w
         = (Resolved cartItem,
            mkWorld (mkDb (users (db w)) (items (db w)) (l1 ++ l2)) (effects w)))
  ∧ (is_caller (CartItem.user cartItem) ctx = false →
     removeFromCart i ctx w = (Rejected (Error "Cheatin huhhhh"), w)
     ∧ error_kind (Error "Cheatin huhhhh") = Some AuthError)
  ∧ (∀ attached,
       removeFromCart i (mkCtx (Request.mk (Request.userId (request ctx)) attached)
                               (Date_now ctx)) w
       = removeFromCart i ctx w).
Proof.
  intros Hfind. split; [|split].
  - intros Hown. destruct (remove_first_find _ _ _ Hfind) as (l1 & l2 & Hl & Hrm).
    exists l1, l2. split; [done|].
    unfold removeFromCart. run. rewrite Hfind, Hown. simpl. by rewrite Hrm.
  - intros Hown. split; [|done].
    unfold removeFromCart. run. by rewrite Hfind, Hown.
  - intros attached. unfold removeFromCart. run. by rewrite Hfind.
Qed.
End RemoveFromCart.

Lemma removeFromCart_owner_only_witness :
  ∃ l1 l2, cartItems Sample.shop_with_cart = l1 ++ CartItem.mk "c2" 1 "u1" "B" :: l2
    ∧ removeFromCart "c2" (Sample.as_alice 0) (mkWorld Sample.shop_with_cart [])
      = (Resolved (CartItem.mk "c2" 1 "u1" "B"),
         mkWorld (mkDb (users Sample.shop_with_cart) (items Sample.shop_with_cart)
                       (l1 ++ l2)) []).
Proof.
  apply (removeFromCart_owner_only "c2" (Sample.as_alice 0)
           (mkWorld Sample.shop_with_cart []) (CartItem.mk "c2" 1 "u1" "B"));
    reflexivity.
Defined.

(** C4, as the claim words it, fails.  There is no permission list, however
    chosen, that some user can satisfy and that opens [removeFromCart] to
    callers who are not the owner: let anyone who passes the [hasPermission]
    check ask, in Bob's session, for line c1 of Alice's cart to be removed;
    the call is refused. *)
Lemma removeFromCart_ignores_permissions :
  ¬ (∃ needed : list string,
       (∃ someone, hasPermission someone needed = Resolved tt)
       ∧ ∀ (i : string) (ctx : Ctx) (w : World) (cartItem : CartItem.t)
           (caller : User.t),
           List.find (has_cartItem_id i) (cartItems (db w)) = Some cartItem →
           Request.user (request ctx) = Some caller →
           is_caller (CartItem.user cartItem) ctx = true
           ∨ hasPermission caller needed = Resolved tt →
           ∃ r w', removeFromCart i ctx w = (Resolved r, w')).
Proof.
  intros (needed & (someone & Hpass) & Hclaim).
  destruct (Hclaim "c1" (mkCtx (Request.mk (Some "u2") (Some someone)) 0)
              (mkWorld Sample.shop_with_cart []) (CartItem.mk "c1" 2 "u1" "A")
              someone eq_refl eq_refl (or_intror Hpass))
    as (r & w' & Hrun).
  vm_compute in Hrun. discriminate Hrun.
Qed.

(** Bob holds ADMIN, so he passes a check for ADMIN; his request to remove
    line c1 of Alice's cart is refused. *)
Example removeFromCart_admin_refused :
  hasPermission Sample.bob ["ADMIN"] = Resolved tt
  ∧ removeFromCart "c1" (Sample.as_bob 0) (mkWorld Sample.shop_with_cart [])
    = (Rejected (Error "Cheatin huhhhh"), mkWorld Sample.shop_with_cart []).
Proof. split; reflexivity. Qed.

(** ** Permission sets *)

Lemma includes_elem_of (x : string) (l : list string) :
  existsb (String.eqb x) l = true ↔ x ∈ l.
Proof.
  rewrite existsb_exists. split.
  - intros (y & Hy & Heq). apply String.eqb_eq in Heq as ->. by apply list_elem_of_In.
  - intros Hx. exists x. split; [by apply list_elem_of_In | apply String.eqb_refl].
Qed.

Lemma some_included_true (l among : list string) :
  some_included l among = true ↔ ∃ x, x ∈ l ∧ x ∈ among.
Proof.
  unfold some_included. rewrite existsb_exists. split.
  - intros (x & Hx & Hin). exists x. split; [by apply list_elem_of_In|].
    by apply includes_elem_of.
  - intros (x & Hx & Hin). exists x. split; [by apply list_elem_of_In|].
    by apply includes_elem_of.
Qed.

Lemma some_included_false (l among : list string) :
  some_included l among = false ↔ ∀ x, x ∈ among → x ∉ l.
Proof.
  rewrite <- not_true_iff_false, some_included_true. split.
  - intros Hno x Hx Hl. apply Hno. by exists x.
  - intros Hno (x & Hl & Hx). by apply (Hno x).
Qed.

(** ** updatePermissions *)

(** C6.  [updatePermissions]:
    - a caller who is not signed in: it fails with "You must be logged in!"
      (an AuthError) and changes nothing;
    - a signed-in caller whose permission set holds neither ADMIN nor
      PERMISSIONUPDATE: the [hasPermission] guard fails (an AuthError) and
      nothing is changed, so the target's permissions are what they were;
    - a signed-in caller holding ADMIN or PERMISSIONUPDATE, and an existing
      target: the target row is replaced by itself with its permission set
      overwritten by exactly the supplied list, whatever it held before; no
      other row changes. *)
Theorem updatePermissions_spec (args : PermissionArgs.t) (ctx : Ctx) (w : World) :
  (signed_in ctx = None →
     updatePermissions args ctx w = (Rejected (Error "You must be logged in!"), w))
  ∧ error_kind (Error "You must be logged in!") = Some AuthError
  ∧ (∀ userId caller,
       signed_in ctx = Some userId →
       List.find (has_user_id userId) (users (db w)) = Some caller →
       "ADMIN" ∉ User.permissions caller →
       "PERMISSIONUPDATE" ∉ User.permissions caller →
       updatePermissions args ctx w = (Rejected (Error insufficient_permissions), w))
  ∧ error_kind (Error insufficient_permissions) = Some AuthError
  ∧ (∀ userId caller target,
       signed_in ctx = Some userId →
       List.find (has_user_id userId) (users (db w)) = Some caller →
       "ADMIN" ∈ User.permissions caller ∨ "PERMISSIONUPDATE" ∈ User.permissions caller →
       List.find (has_user_id (PermissionArgs.userId args)) (users (db w)) = Some target →
       let updated := User.set_permissions (PermissionArgs.permissions args) target in
       User.permissions updated = PermissionArgs.permissions args
       ∧ ∃ l1 l2,
           users (db w) = l1 ++ target :: l2
           ∧ updatePermissions args ctx w
             = (Resolved updated,
                mkWorld (mkDb (l1 ++ updated :: l2) (items (db w)) (cartItems (db w)))
                        (effects w))).
Proof.
  split; [|split; [done|split; [|split; [done|]]]].
  - intros Hanon. unfold updatePermissions. by rewrite Hanon.
  - intros userId caller Hin Hcaller Hadmin Hupdate.
    unfold updatePermissions. rewrite Hin. run. rewrite Hcaller.
    unfold hasPermission.
    replace (some_included (User.permissions caller) ["ADMIN"; "PERMISSIONUPDATE"])
      with false; [done|].
    symmetry. apply some_included_false. intros x Hx.
    apply elem_of_cons in Hx as [-> | Hx]; [done|].
    apply list_elem_of_singleton in Hx as ->. done.
  - intros userId caller target Hin Hcaller Hperm Htarget updated.
    split; [done|].
    destruct (update_first_find _
                (User.set_permissions (PermissionArgs.permissions args)) _ _ Htarget)
      as (l1 & l2 & Hl & Hupd).
    exists l1, l2. split; [done|].
    unfold updatePermissions. rewrite Hin. run. rewrite Hcaller.
    unfold hasPermission.
    replace (some_included (User.permissions caller) ["ADMIN"; "PERMISSIONUPDATE"])
      with true.
    + by rewrite Hupd.
    + symmetry. apply some_included_true.
      destruct Hperm as [Hp | Hp]; eexists; (split; [exact Hp|]); set_solver.
Qed.

(** Bob, who holds ADMIN, gives Alice the single permission ITEMDELETE; her
    former USER is gone.  Alice, who holds only USER, cannot return the
    favour. *)
Lemma updatePermissions_spec_witness :
  (∃ w', updatePermissions (PermissionArgs.mk "u1" ["ITEMDELETE"]) (Sample.as_bob 0)
           Sample.world
         = (Resolved (User.set_permissions ["ITEMDELETE"] Sample.alice), w')
         ∧ users (db w')
           = [User.set_permissions ["ITEMDELETE"] Sample.alice; Sample.bob])
  ∧ updatePermissions (PermissionArgs.mk "u2" []) (Sample.as_alice 0) Sample.world
    = (Rejected (Error insufficient_permissions), Sample.world).
Proof.
  destruct (updatePermissions_spec (PermissionArgs.mk "u1" ["ITEMDELETE"])
              (Sample.as_bob 0) Sample.world) as (_ & _ & _ & _ & Hok).
  destruct (updatePermissions_spec (PermissionArgs.mk "u2" [])
              (Sample.as_alice 0) Sample.world) as (_ & _ & Hno & _ & _).
  split.
  - destruct (Hok "u2" Sample.bob Sample.alice) as (_ & l1 & l2 & Hl & Hrun);
      [reflexivity | reflexivity | left; compute_done | reflexivity |].
    eexists. split; [exact Hrun|].
    vm_compute in Hrun. injection Hrun as Hrun. symmetry. exact Hrun.
  - apply (Hno "u1" Sample.alice); [reflexivity | reflexivity | compute_done..].
Defined.

(** ** deleteItem *)

Section DeleteItem.
Context `{Externals}.

(** C10.  [deleteItem] reads [ctx.request.user.permissions] before it
    looks at the outcome of the ownership test.  So on a request to which
    no user record is attached, the call ends in a TypeError, which is not
    an AuthError, and nothing is deleted; for an existing item the
    TypeError is the read of [permissions] off [undefined], also when the
    caller is not the owner and the ownership test alone would have
    refused. *)
Theorem deleteItem_without_user (args_id : string) (ctx : Ctx) (w : World) :
  Request.user (request ctx) = None →
  (∃ message,
     deleteItem args_id ctx w = (Rejected (TypeError message), w)
     ∧ error_kind (TypeError message) ≠ Some AuthError)
  ∧ (∀ item,
       List.find (has_item_id args_id) (items (db w)) = Some item →
       deleteItem args_id ctx w
       = (Rejected (TypeError "Cannot read property 'permissions' of undefined"), w)).
Proof.
  intros Hnone. unfold deleteItem. run. rewrite Hnone.
  destruct (List.find (has_item_id args_id) (items (db w))) as [item|]; split;
    try (eexists; split; [reflexivity | discriminate]); try done.
Qed.

(** The permission error of [deleteItem] is only ever raised on a request
    that carries a user record. *)
Lemma deleteItem_refusal_needs_user (args_id : string) (ctx : Ctx) (w w' : World) :
  deleteItem args_id ctx w
  = (Rejected (Error "You don't have permission to do that!"), w') →
  ∃ user, Request.user (request ctx) = Some user.
Proof.
  unfold deleteItem. run.
  destruct (List.find (has_item_id args_id) (items (db w))); [|discriminate].
  destruct (Request.user (request ctx)) as [user|]; [eauto | discriminate].
Qed.

(** With a user record attached, [deleteItem] deletes for the owner and for
    holders of ADMIN or ITEMDELETE, and refuses everybody else. *)
Lemma deleteItem_with_user (args_id : string) (ctx : Ctx) (w : World)
    (item : Item.t) (user : User.t) :
  List.find (has_item_id args_id) (items (db w)) = Some item →
  Request.user (request ctx) = Some user →
  deleteItem args_id ctx w
  = if is_caller (Item.user item) ctx
       || some_included (User.permissions user) ["ADMIN"; "ITEMDELETE"]
    then mutation_deleteItem args_id w
    else (Rejected (Error "You don't have permission to do that!"), w).
Proof.
  intros Hitem Huser. unfold deleteItem. run. rewrite Hitem, Huser.
  destruct (is_caller (Item.user item) ctx); simpl; [done|].
  by destruct (some_included (User.permissions user) ["ADMIN"; "ITEMDELETE"]).
Qed.
End DeleteItem.

(** An anonymous request to delete Alice's item A. *)
Lemma deleteItem_without_user_witness :
  Request.user (request (Sample.anonymous 0)) = None
  ∧ is_caller (Item.user Sample.A) (Sample.anonymous 0) = false
  ∧ deleteItem "A" (Sample.anonymous 0) Sample.world
    = (Rejected (TypeError "Cannot read property 'permissions' of undefined"),
       Sample.world).
Proof.
  split; [reflexivity|]. split; [reflexivity|].
  apply (proj2 (deleteItem_without_user "A" (Sample.anonymous 0) Sample.world eq_refl)
           Sample.A).
  reflexivity.
Defined.

(** ** requestReset *)

Section RequestReset.
Context `{Externals}.

(** C9, as the code has it.  For every existing user, [requestReset]
    stores the token and the expiry on the user's row and hands the mail to
    the transport.  Whatever receipt [sendMail] resolves with is dropped
    and the acknowledgement is returned; a [sendMail] that rejects is not
    caught, its error is the outcome of the call.  The token and the expiry
    are stored in both cases. *)
Theorem requestReset_outcome (args_email : string) (ctx : Ctx) (w : World)
    (user : User.t) :
  List.find (has_user_email args_email) (users (db w)) = Some user →
  let resetToken := randomBytes_hex 20 in
  let stored :=
    User.set_reset (Some resetToken) (Some (Date_now ctx + 3600000)%Z) user in
  let mail := mkMail "zain.fathoni@gmail.com" (User.email user)
                "Your Password Reset Token"
                (makeANiceEmail (reset_mail_body resetToken)) in
  ∃ l1 l2,
    users (db w) = l1 ++ user :: l2
    ∧ requestReset args_email ctx w
      = (match transport_sendMail mail with
         | Resolved _ => Resolved (mkMessage "Thanks!")
         | Rejected e => Rejected e
         end,
         mkWorld (mkDb (l1 ++ stored :: l2) (items (db w)) (cartItems (db w)))
                 (effects w ++ [SendMail mail])).
Proof.
  intros Hfind resetToken stored mail.
  destruct (update_first_find _
              (User.set_reset (Some resetToken) (Some (Date_now ctx + 3600000)%Z))
              _ _ Hfind) as (l1 & l2 & Hl & Hupd).
  exists l1, l2. split; [done|].
  unfold requestReset. run. rewrite Hfind. simpl.
  fold resetToken. rewrite Hupd. simpl. fold stored. fold mail.
  by destruct (transport_sendMail mail).
Qed.
End RequestReset.

Lemma requestReset_outcome_witness :
  ∃ w',
    requestReset (H := Sample.externals) "alice@x.org" (Sample.anonymous 1000)
      Sample.world = (Resolved (mkMessage "Thanks!"), w')
    ∧ (User.resetTokenExpiry <$> users (db w')) = [Some 3601000%Z; Some 5000%Z].
Proof.
  destruct (requestReset_outcome (H := Sample.externals) "alice@x.org"
              (Sample.anonymous 1000) Sample.world Sample.alice eq_refl)
    as (l1 & l2 & Hl & Hrun).
  eexists. split; [exact Hrun|].
  vm_compute in Hrun. injection Hrun as Hrun.
  exact (eq_trans (f_equal (fmap User.resetTokenExpiry) (eq_sym Hrun)) eq_refl).
Defined.

(** C9, as the claim words it, fails: when the mail server refuses the
    connection, the call made for Alice does not return the acknowledgement,
    it rejects with the transport's error. *)
Lemma requestReset_mail_failure_surfaces :
  ¬ (∀ (E : Externals) (args_email : string) (ctx : Ctx) (w : World) (user : User.t),
       List.find (has_user_email args_email) (users (db w)) = Some user →
       fst (requestReset args_email ctx w) = Resolved (mkMessage "Thanks!")).
Proof.
  intros Hclaim.
  specialize (Hclaim Sample.mail_down "alice@x.org" (Sample.anonymous 1000)
                Sample.world Sample.alice eq_refl).
  vm_compute in Hclaim. discriminate Hclaim.
Qed.

(** ** signup *)

Lemma lower_ascii_not_upper (c : ascii) : is_upper (lower_ascii c) = false.
Proof.
  unfold lower_ascii. destruct (is_upper c) eqn:Hc; [|done].
  unfold is_upper in *. apply andb_true_iff in Hc as [Hlo Hhi].
  apply Nat.leb_le in Hlo, Hhi.
  rewrite nat_ascii_embedding by lia.
  apply andb_false_iff. right. apply Nat.leb_gt. lia.
Qed.

(** The result of [toLowerCase] holds no capital letter. *)
Lemma toLowerCase_no_upper (s : string) :
  Forall (λ c, is_upper c = false) (list_ascii_of_string (toLowerCase s)).
Proof.
  induction s as [|c s IH]; simpl; constructor; [apply lower_ascii_not_upper | done].
Qed.

Lemma User_create_Some (i : string) (data : Obj) (u : User.t) :
  User.create i data = Some u →
  data !! "name" = Some (VStr (User.name u))
  ∧ data !! "email" = Some (VStr (User.email u))
  ∧ data !! "password" = Some (VStr (User.password u))
  ∧ data !! "permissions" = Some (VSet (User.permissions u))
  ∧ User.id u = i
  ∧ User.resetToken u = None
  ∧ User.resetTokenExpiry u = None.
Proof.
  unfold User.create. intros Hc.
  repeat case_match; try discriminate. by injection Hc as <-.
Qed.

Section Signup.
Context `{Externals}.

(** C5.  For signup arguments whose [email] and [password] are strings, and
    a hasher that does not return this password unchanged: [signup] calls
    [createUser] with a record whose email is the lowercased supplied
    email, whose password is the hash (cost 10) of the supplied password and
    not the password itself, and whose permission set is exactly [USER];
    every other field is the caller's.  When the call succeeds, the row
    appended to the user table carries these three values. *)
Theorem signup_record (args : Obj) (ctx : Ctx) (w : World) (email password : string) :
  args !! "email" = Some (VStr email) →
  args !! "password" = Some (VStr password) →
  bcrypt_hash password 10 ≠ password →
  let data := signup_data email password args in
  signup args ctx w
  = (user ← mutation_createUser data;
     _ ← response_cookie "token" (jwt_sign (User.id user) APP_SECRET) true 31536000000;
     mret user) w
  ∧ data !! "email" = Some (VStr (toLowerCase email))
  ∧ data !! "password" = Some (VStr (bcrypt_hash password 10))
  ∧ data !! "password" ≠ Some (VStr password)
  ∧ data !! "permissions" = Some (VSet ["USER"])
  ∧ (∀ k, k ≠ "email" → k ≠ "password" → k ≠ "permissions" → data !! k = args !! k)
  ∧ (∀ u w', signup args ctx w = (Resolved u, w') →
       users (db w') = users (db w) ++ [u]
       ∧ User.email u = toLowerCase email
       ∧ User.password u = bcrypt_hash password 10
       ∧ User.password u ≠ password
       ∧ User.permissions u = ["USER"]).
Proof.
  intros Hemail Hpassword Hhash data.
  assert (He : data !! "email" = Some (VStr (toLowerCase email))).
  { unfold data, signup_data. rewrite !lookup_insert_ne by done.
    apply lookup_insert_eq. }
  assert (Hp : data !! "password" = Some (VStr (bcrypt_hash password 10))).
  { unfold data, signup_data. rewrite lookup_insert_ne by done.
    apply lookup_insert_eq. }
  assert (Hs : data !! "permissions" = Some (VSet ["USER"])).
  { unfold data, signup_data. apply lookup_insert_eq. }
  split; [|split; [done|split; [done|split; [|split; [done|split]]]]].
  - unfold signup. by rewrite Hemail, Hpassword.
  - rewrite Hp. intros [= Heq]. by apply Hhash.
  - intros k Hk1 Hk2 Hk3. unfold data, signup_data.
    by rewrite !lookup_insert_ne by done.
  - intros u w'. unfold signup. rewrite Hemail, Hpassword. run. fold data.
    destruct (User.create _ data) as [u0|] eqn:Hcreate; [|discriminate].
    destruct (existsb _ _); [discriminate|]. simpl. intros [= <- <-]. simpl.
    apply User_create_Some in Hcreate as (_ & He' & Hp' & Hs' & _).
    rewrite He in He'. rewrite Hp in Hp'. rewrite Hs in Hs'.
    injection He' as <-. injection Hp' as <-. injection Hs' as <-. done.
Qed.
End Signup.

(** Carol signs up as Carol@X.org. *)
Lemma signup_record_witness :
  let args : Obj :=
    <["email" := VStr "Carol@X.org"]> (<["password" := VStr "hunter2"]>
    {[ "name" := VStr "Carol" ]}) in
  @bcrypt_hash Sample.externals "hunter2" 10 ≠ "hunter2"
  ∧ ∃ u w',
      signup (H := Sample.externals) args (Sample.anonymous 0) Sample.world
        = (Resolved u, w')
      ∧ users (db w') = users Sample.shop ++ [u]
      ∧ User.email u = "carol@x.org"
      ∧ User.password u = "$2a$10$hunter2"
      ∧ User.permissions u = ["USER"].
Proof.
  intros args.
  assert (Hhash : @bcrypt_hash Sample.externals "hunter2" 10 ≠ "hunter2") by done.
  split; [exact Hhash|].
  destruct (signup_record (H := Sample.externals) args (Sample.anonymous 0)
              Sample.world "Carol@X.org" "hunter2" eq_refl eq_refl Hhash)
    as (_ & _ & _ & _ & _ & _ & Hrow).
  eexists _, _. split; [vm_compute; reflexivity|].
  destruct (Hrow _ _ ltac:(vm_compute; reflexivity)) as (Hus & He & Hp & _ & Hs).
  repeat split; assumption.
Defined.

(** ** updateItem *)

(** A payload the client accepts carries nothing but updatable fields. *)
Lemma valid_update_lookup (data : Obj) (k : string) (v : Value) :
  Item.valid_update data = true → data !! k = Some v → Item.updatable k v = true.
Proof.
  unfold Item.valid_update. intros Hvalid Hk.
  apply bool_decide_eq_true in Hvalid. exact (Hvalid k v Hk).
Qed.

(** Patching a row with an accepted payload lays the payload over the row:
    read as objects, the new row is the payload united with the old row, the
    payload's fields taking precedence. *)
Lemma to_obj_patch (data : Obj) (x : Item.t) :
  Item.valid_update data = true →
  Item.to_obj (Item.patch data x) = data ∪ Item.to_obj x.
Proof.
  intros Hvalid. apply map_eq. intros k. rewrite lookup_union.
  destruct (data !! k) as [v|] eqn:Hk.
  - pose proof (valid_update_lookup _ _ _ Hvalid Hk) as Hu.
    generalize (Item.to_obj x !! k). intros old.
    destruct v as [|n|s|u|l]; simpl in Hu; try discriminate.
    + apply String.eqb_eq in Hu as ->. unfold Item.to_obj.
      rewrite !lookup_insert_ne by done. rewrite !lookup_insert_eq.
      unfold Item.patch; cbn [Item.price]. rewrite Hk. destruct old; reflexivity.
    + rewrite !orb_true_iff, !String.eqb_eq in Hu.
      destruct Hu as [-> | [-> | [-> | ?]]]; try discriminate; unfold Item.to_obj;
        rewrite !lookup_insert_ne by done; rewrite !lookup_insert_eq;
        unfold Item.patch; cbn [Item.title Item.description Item.image];
        rewrite Hk; destruct old; reflexivity.
    + apply String.eqb_eq in Hu as ->. unfold Item.to_obj.
      rewrite !lookup_insert_ne by done. rewrite !lookup_insert_eq.
      unfold Item.patch; cbn [Item.user]. rewrite Hk. destruct old; reflexivity.
  - unfold Item.to_obj. rewrite !lookup_insert.
    unfold Item.patch;
      cbn [Item.id Item.title Item.description Item.image Item.price Item.user].
    repeat case_decide; subst; rewrite ?Hk; done.
Qed.

Section UpdateItem.
Context `{Externals}.

(** C8.  [updateItem] looks at nothing of the caller: any two request
    contexts give the same outcome.  When [args.id] names an existing item
    and the database accepts the remaining fields, the item row is replaced
    by a row that, read as an object, is the provided fields without [id]
    laid over the old row; its [id] is the old [id]. *)
Theorem updateItem_applies_fields (args : Obj) (ctx : Ctx) (w : World)
    (i : string) (item : Item.t) :
  args !! "id" = Some (VStr i) →
  List.find (has_item_id i) (items (db w)) = Some item →
  Item.valid_update (delete "id" args) = true →
  connects (db w) (delete "id" args) = true →
  (∀ ctx', updateItem args ctx' w = updateItem args ctx w)
  ∧ ∃ updated l1 l2,
      items (db w) = l1 ++ item :: l2
      ∧ updateItem args ctx w
        = (Resolved updated,
           mkWorld (mkDb (users (db w)) (l1 ++ updated :: l2) (cartItems (db w)))
                   (effects w))
      ∧ Item.to_obj updated = delete "id" args ∪ Item.to_obj item
      ∧ Item.id updated = Item.id item.
Proof.
  intros Hid Hfind Hvalid Hconn. split; [done|].
  destruct (update_first_find _ (Item.patch (delete "id" args)) _ _ Hfind)
    as (l1 & l2 & Hl & Hupd).
  exists (Item.patch (delete "id" args) item), l1, l2.
  split; [done|]. split; [|split; [by apply to_obj_patch | done]].
  unfold updateItem. run. by rewrite Hid, Hvalid, Hconn, Hupd.
Qed.
End UpdateItem.

(** An anonymous request renames item A and changes its price; the [id]
    passed along is used to find the row and is not written. *)
Lemma updateItem_applies_fields_witness :
  let args : Obj :=
    <["id" := VStr "A"]> (<["title" := VStr "Boots"]> {[ "price" := VNum 700 ]}) in
  ∃ updated w',
    updateItem args (Sample.anonymous 0) Sample.world = (Resolved updated, w')
    ∧ updated = Item.mk "A" "Boots" "Running shoes" "a.png" 700 "u1"
    ∧ Item.to_obj updated = delete "id" args ∪ Item.to_obj Sample.A.
Proof.
  intros args.
  destruct (updateItem_applies_fields args (Sample.anonymous 0) Sample.world "A"
              Sample.A) as (_ & updated & l1 & l2 & Hl & Hrun & Hobj & Hid);
    [reflexivity | reflexivity | vm_compute; reflexivity | reflexivity |].
  exists updated. eexists. split; [exact Hrun|]. split; [|exact Hobj].
  vm_compute in Hrun. by injection Hrun as <- _.
Defined.

(** * Further properties of the resolvers *)

Ltac run_all := unfold mutation_createItem; run.

(** ** More on lists *)

Lemma update_first_inv {A} (p : A → bool) (f : A → A) (l l' : list A) (y : A) :
  update_first p f l = Some (y, l') →
  ∃ x l1 l2, l = l1 ++ x :: l2 ∧ Forall (λ z, p z = false) l1 ∧ p x = true
             ∧ y = f x ∧ l' = l1 ++ f x :: l2.
Proof.
  revert l' y. induction l as [|a l IH]; simpl; intros l' y; [discriminate|].
  destruct (p a) eqn:Hp.
  - intros [= <- <-]. by exists a, [], l.
  - destruct (update_first p f l) as [[y0 l0]|] eqn:Hu; [|discriminate].
    intros [= <- <-]. destruct (IH _ _ eq_refl) as (x & l1 & l2 & -> & Hl1 & Hx & -> & ->).
    exists x, (a :: l1), l2. repeat split; try done. by constructor.
Qed.

Lemma remove_first_inv {A} (p : A → bool) (l l' : list A) (y : A) :
  remove_first p l = Some (y, l') →
  ∃ l1 l2, l = l1 ++ y :: l2 ∧ Forall (λ z, p z = false) l1 ∧ p y = true
           ∧ l' = l1 ++ l2.
Proof.
  revert l' y. induction l as [|a l IH]; simpl; intros l' y; [discriminate|].
  destruct (p a) eqn:Hp.
  - intros [= <- <-]. by exists [], l.
  - destruct (remove_first p l) as [[y0 l0]|] eqn:Hu; [|discriminate].
    intros [= <- <-]. destruct (IH _ _ eq_refl) as (l1 & l2 & -> & Hl1 & Hx & ->).
    exists (a :: l1), l2. repeat split; try done. by constructor.
Qed.

Lemma find_split {A} (p : A → bool) (l1 l2 : list A) (x : A) :
  Forall (λ z, p z = false) l1 → p x = true → List.find p (l1 ++ x :: l2) = Some x.
Proof.
  intros Hl1 Hx. induction Hl1 as [|a l1 Ha _ IH]; simpl.
  - by rewrite Hx.
  - by rewrite Ha.
Qed.

Lemma remove_first_split {A} (p : A → bool) (l1 l2 : list A) (x : A) :
  Forall (λ z, p z = false) l1 → p x = true →
  remove_first p (l1 ++ x :: l2) = Some (x, l1 ++ l2).
Proof.
  intros Hl1 Hx. induction Hl1 as [|a l1 Ha _ IH]; simpl.
  - by rewrite Hx.
  - by rewrite Ha, IH.
Qed.

Lemma find_None_Forall {A} (p : A → bool) (l : list A) :
  List.find p l = None ↔ Forall (λ z, p z = false) l.
Proof.
  induction l as [|a l IH]; simpl.
  - split; [constructor | done].
  - destruct (p a) eqn:Hp.
    + split; [discriminate|]. intros Hall. apply Forall_cons in Hall as [Ha _]. congruence.
    + rewrite IH. split; [by constructor|]. by intros [_ ?]%Forall_cons.
Qed.

Lemma find_elem {A} (p : A → bool) (l : list A) (x : A) :
  x ∈ l → p x = true → ∃ y, List.find p l = Some y.
Proof.
  intros Hx Hp. destruct (List.find p l) as [y|] eqn:Hf; [eauto|].
  apply find_None_Forall in Hf. rewrite Forall_forall in Hf.
  specialize (Hf x Hx). congruence.
Qed.

Lemma head_filter_nil {A} (p : A → bool) (l : list A) :
  head (List.filter p l) = None → Forall (λ z, p z = false) l.
Proof.
  intros Hh. apply filter_nil_Forall. by destruct (List.filter p l).
Qed.


Lemma update_first_fmap {A B} (g : A → B) (p : A → bool) (f : A → A)
    (l l' : list A) (y : A) :
  (∀ x, g (f x) = g x) → update_first p f l = Some (y, l') → g <$> l' = g <$> l.
Proof.
  intros Hg Hu. apply update_first_inv in Hu as (x & l1 & l2 & -> & _ & _ & _ & ->).
  rewrite !fmap_app, !fmap_cons. by rewrite Hg.
Qed.

Lemma signed_in_Some (ctx : Ctx) (u : string) :
  signed_in ctx = Some u → Request.userId (request ctx) = Some u ∧ u ≠ "".
Proof.
  unfold signed_in. destruct (Request.userId (request ctx)) as [v|]; [|discriminate].
  destruct (String.eqb_spec v ""); [discriminate|]. by intros [= <-].
Qed.

Lemma world_eta (w : World) : mkWorld (db w) (effects w) = w.
Proof. by destruct w. Qed.

Lemma db_eta (d : Db) : mkDb (users d) (items d) (cartItems d) = d.
Proof. by destruct d. Qed.

(** ** Who must be signed in *)

Section LoginRequired.
Context `{Externals}.

(** X1.  Without a truthy [userId] on the request, [createItem],
    [updatePermissions], [addToCart] and [createOrder] stop at their first
    statement: each rejects with its own "must be logged in" error, which is
    an AuthError, and the world is as before. *)
Theorem login_required (ctx : Ctx) (w : World) :
  signed_in ctx = None →
  (∀ args, createItem args ctx w
           = (Rejected (Error "You must be logged in to do that!"), w))
  ∧ (∀ args, updatePermissions args ctx w
             = (Rejected (Error "You must be logged in!"), w))
  ∧ (∀ i, addToCart i ctx w = (Rejected (Error "You must be signed in soon"), w))
  ∧ (∀ token, createOrder token ctx w
              = (Rejected (Error "You must be signed in to complete this order."), w))
  ∧ Forall (λ m, error_kind (Error m) = Some AuthError)
      ["You must be logged in to do that!"; "You must be logged in!";
       "You must be signed in soon"; "You must be signed in to complete this order."].
Proof.
  intros Hout. repeat split.
  - intros args. unfold createItem. by rewrite Hout.
  - intros args. unfold updatePermissions. by rewrite Hout.
  - intros i. unfold addToCart. by rewrite Hout.
  - intros token. unfold createOrder. by rewrite Hout.
  - repeat constructor.
Qed.
End LoginRequired.

(** A request whose [userId] is the empty string is as good as anonymous. *)
Lemma login_required_witness :
  signed_in (mkCtx (Request.mk (Some "") None) 0) = None
  ∧ addToCart (H := Sample.externals) "A" (mkCtx (Request.mk (Some "") None) 0)
      Sample.world
    = (Rejected (Error "You must be signed in soon"), Sample.world).
Proof.
  split; [reflexivity|].
  apply (login_required (H := Sample.externals) (mkCtx (Request.mk (Some "") None) 0)
           Sample.world eq_refl).
Defined.

(** ** Rejections that leave no trace *)

Section NoTrace.
Context `{Externals}.

(** X2.  In nine of the resolvers every [throw], the [hasPermission] guard
    and every property read that can fail come before the first write,
    cookie or console line.  So whenever [createItem], [updateItem],
    [deleteItem], [signup], [signin], [resetPassword], [updatePermissions],
    [addToCart] or [removeFromCart] rejects with an exception raised by such
    a statement, the database and the trace of effects are exactly what they
    were before the call.  Rejections that come from a collaborator (the
    database client, the hasher) are not spoken of. *)
Theorem rejection_leaves_no_trace (ctx : Ctx) (w w' : World) (e : Exn) :
  raised_by_resolver e = true →
  (∀ args, createItem args ctx w = (Rejected e, w') → w' = w)
  ∧ (∀ args, updateItem args ctx w = (Rejected e, w') → w' = w)
  ∧ (∀ i, deleteItem i ctx w = (Rejected e, w') → w' = w)
  ∧ (∀ args, signup args ctx w = (Rejected e, w') → w' = w)
  ∧ (∀ args, signin args ctx w = (Rejected e, w') → w' = w)
  ∧ (∀ args, resetPassword args ctx w = (Rejected e, w') → w' = w)
  ∧ (∀ args, updatePermissions args ctx w = (Rejected e, w') → w' = w)
  ∧ (∀ i, addToCart i ctx w = (Rejected e, w') → w' = w)
  ∧ (∀ i, removeFromCart i ctx w = (Rejected e, w') → w' = w).
Proof.
  intros Hown. destruct w as [d effs].
  repeat apply conj.
  - intros args. unfold createItem. run_all.
    repeat case_match; intros; simplify_eq; done.
  - intros args. unfold updateItem. run_all.
    repeat case_match; intros; simplify_eq; done.
  - intros i. unfold deleteItem. run_all.
    repeat case_match; intros; simplify_eq; done.
  - intros args. unfold signup. run_all.
    repeat case_match; intros; simplify_eq; done.
  - intros args. unfold signin. run_all.
    repeat case_match; intros; simplify_eq; done.
  - intros args. unfold resetPassword. run_all.
    repeat case_match; intros; simplify_eq; done.
  - intros args. unfold updatePermissions, hasPermission. run_all.
    repeat case_match; intros; simplify_eq; done.
  - intros i. unfold addToCart. run_all.
    repeat case_match; intros; simplify_eq; done.
  - intros i. unfold removeFromCart. run_all.
    repeat case_match; intros; simplify_eq; done.
Qed.
End NoTrace.

(** Alice's wrong password sets no cookie. *)
Lemma rejection_leaves_no_trace_witness :
  raised_by_resolver (Error "Invalid Password!") = true
  ∧ (∃ w', signin (H := Sample.externals) (SigninArgs.mk "alice@x.org" "looking-glass")
             (Sample.anonymous 0) Sample.world
           = (Rejected (Error "Invalid Password!"), w')
           ∧ w' = Sample.world).
Proof.
  split; [reflexivity|].
  assert (Hrun : signin (H := Sample.externals)
                   (SigninArgs.mk "alice@x.org" "looking-glass") (Sample.anonymous 0)
                   Sample.world
                 = (Rejected (Error "Invalid Password!"), Sample.world))
    by (vm_compute; reflexivity).
  exists Sample.world. split; [exact Hrun|].
  destruct (rejection_leaves_no_trace (H := Sample.externals) (Sample.anonymous 0)
              Sample.world Sample.world (Error "Invalid Password!") eq_refl)
    as (_ & _ & _ & _ & Hsignin & _).
  exact (Hsignin _ Hrun).
Defined.

(** ** createItem *)

Lemma Item_create_Some (i : string) (data : Obj) (x : Item.t) :
  Item.create i data = Some x →
  data !! "title" = Some (VStr (Item.title x))
  ∧ data !! "description" = Some (VStr (Item.description x))
  ∧ data !! "image" = Some (VStr (Item.image x))
  ∧ data !! "price" = Some (VNum (Item.price x))
  ∧ data !! "user" = Some (VConnect (Item.user x))
  ∧ Item.id x = i.
Proof.
  unfold Item.create. intros Hc.
  repeat case_match; try discriminate. by injection Hc as <-.
Qed.

Section CreateItem.
Context `{Externals}.

(** What a successful [createItem] did, in terms of the payload it sent. *)
Lemma createItem_resolved (args : Obj) (ctx : Ctx) (w w' : World) (u : string)
    (item : Item.t) :
  signed_in ctx = Some u →
  createItem args ctx w = (Resolved item, w') →
  Item.create (new_id (Item.id <$> items (db w))) (createItem_data u args) = Some item
  ∧ w' = mkWorld (mkDb (users (db w)) (items (db w) ++ [item]) (cartItems (db w)))
                 (effects w).
Proof.
  intros Hu. unfold createItem. rewrite Hu. run_all.
  destruct (Item.create _ _) as [x|]; [|discriminate].
  destruct (existsb _ _); [|discriminate]. simpl. by intros [= <- <-].
Qed.

(** X3.  A signed-in caller whose arguments carry no [user] field: the item
    [createItem] creates belongs to the caller, carries the title,
    description, image and price of the arguments, gets an id no item had,
    and is appended to the item table; the user and cart tables are not
    touched and no effect is emitted. *)
Theorem createItem_owned_by_caller (args : Obj) (ctx : Ctx) (w w' : World)
    (u : string) (item : Item.t) :
  signed_in ctx = Some u →
  args !! "user" = None →
  createItem args ctx w = (Resolved item, w') →
  Item.user item = u
  ∧ args !! "title" = Some (VStr (Item.title item))
  ∧ args !! "description" = Some (VStr (Item.description item))
  ∧ args !! "image" = Some (VStr (Item.image item))
  ∧ args !! "price" = Some (VNum (Item.price item))
  ∧ (Item.id item ∉ (Item.id <$> items (db w)))
  ∧ w' = mkWorld (mkDb (users (db w)) (items (db w) ++ [item]) (cartItems (db w)))
                 (effects w).
Proof.
  intros Hu Hnone Hrun.
  destruct (createItem_resolved _ _ _ _ _ _ Hu Hrun) as [Hc ->].
  apply Item_create_Some in Hc as (Ht & Hd & Him & Hp & Hus & Hid).
  unfold createItem_data in *.
  rewrite lookup_union_l in Ht by (by apply lookup_singleton_ne).
  rewrite lookup_union_l in Hd by (by apply lookup_singleton_ne).
  rewrite lookup_union_l in Him by (by apply lookup_singleton_ne).
  rewrite lookup_union_l in Hp by (by apply lookup_singleton_ne).
  rewrite lookup_union_r in Hus by done. rewrite lookup_singleton_eq in Hus.
  injection Hus as Hus. repeat split; try done.
  rewrite Hid. apply new_id_fresh.
Qed.

(** X4.  The spread [...args] comes after the [user] field in the payload
    of [createItem]: when the arguments carry a [user] field of their own,
    it is that field the database receives, and a created item belongs to
    the user named there, not to the caller. *)
Theorem createItem_args_override_owner (args : Obj) (ctx : Ctx) (w w' : World)
    (u other : string) (item : Item.t) :
  signed_in ctx = Some u →
  args !! "user" = Some (VConnect other) →
  createItem_data u args !! "user" = Some (VConnect other)
  ∧ (createItem args ctx w = (Resolved item, w') → Item.user item = other).
Proof.
  intros Hu Hother.
  assert (Hdata : createItem_data u args !! "user" = Some (VConnect other)).
  { unfold createItem_data. by rewrite (lookup_union_Some_l _ _ _ _ Hother). }
  split; [done|]. intros Hrun.
  destruct (createItem_resolved _ _ _ _ _ _ Hu Hrun) as [Hc _].
  apply Item_create_Some in Hc as (_ & _ & _ & _ & Hus & _).
  rewrite Hdata in Hus. by injection Hus as <-.
Qed.
End CreateItem.

(** Alice lists a scarf. *)
Lemma createItem_owned_by_caller_witness :
  let args : Obj :=
    <["title" := VStr "Scarf"]> (<["description" := VStr "Wool scarf"]>
    (<["image" := VStr "s.png"]> {[ "price" := VNum 900 ]})) in
  ∃ item w',
    createItem (H := Sample.externals) args (Sample.as_alice 0) Sample.world
      = (Resolved item, w')
    ∧ Item.user item = "u1"
    ∧ Item.price item = 900%Z
    ∧ items (db w') = [Sample.A; Sample.B; item].
Proof.
  intros args. eexists _, _. split; [vm_compute; reflexivity|].
  destruct (createItem_owned_by_caller (H := Sample.externals) args
              (Sample.as_alice 0) Sample.world _ "u1" _ eq_refl eq_refl
              ltac:(vm_compute; reflexivity)) as (Hu & _).
  split; [exact Hu|]. split; reflexivity.
Defined.

(** Alice lists a scarf in Bob's name. *)
Lemma createItem_args_override_owner_witness :
  let args : Obj :=
    <["title" := VStr "Scarf"]> (<["description" := VStr "Wool scarf"]>
    (<["image" := VStr "s.png"]> (<["price" := VNum 900]>
    {[ "user" := VConnect "u2" ]}))) in
  ∃ item w',
    createItem (H := Sample.externals) args (Sample.as_alice 0) Sample.world
      = (Resolved item, w')
    ∧ Item.user item = "u2".
Proof.
  intros args. eexists _, _. split; [vm_compute; reflexivity|].
  eapply (createItem_args_override_owner (H := Sample.externals) args
            (Sample.as_alice 0) Sample.world);
    [reflexivity | reflexivity | vm_compute; reflexivity].
Defined.

(** ** deleteItem, with a user on the request *)

Section DeleteItemDecision.
Context `{Externals}.

(** X5.  [deleteItem] on a request that carries a user record.
    - An id that names no item: the call ends in the TypeError of reading
      [user] off [null], whoever asks; nothing is deleted.
    - An existing item and a caller who owns it, or whose record lists ADMIN
      or ITEMDELETE: exactly that row leaves the item table and is returned;
      users and cart lines are untouched.
    - An existing item and any other caller: the call fails with "You don't
      have permission to do that!" (an AuthError) and nothing changes. *)
Theorem deleteItem_decision (args_id : string) (ctx : Ctx) (w : World) (user : User.t) :
  Request.user (request ctx) = Some user →
  (List.find (has_item_id args_id) (items (db w)) = None →
     deleteItem args_id ctx w
     = (Rejected (TypeError "Cannot read property 'user' of null"), w))
  ∧ (∀ item,
       List.find (has_item_id args_id) (items (db w)) = Some item →
       is_caller (Item.user item) ctx = true
       ∨ "ADMIN" ∈ User.permissions user ∨ "ITEMDELETE" ∈ User.permissions user →
       ∃ l1 l2,
         items (db w) = l1 ++ item :: l2
         ∧ deleteItem args_id ctx w
           = (Resolved item,
              mkWorld (mkDb (users (db w)) (l1 ++ l2) (cartItems (db w))) (effects w)))
  ∧ (∀ item,
       List.find (has_item_id args_id) (items (db w)) = Some item →
       is_caller (Item.user item) ctx = false →
       "ADMIN" ∉ User.permissions user →
       "ITEMDELETE" ∉ User.permissions user →
       deleteItem args_id ctx w
       = (Rejected (Error "You don't have permission to do that!"), w)
       ∧ error_kind (Error "You don't have permission to do that!") = Some AuthError).
Proof.
  intros Huser. split; [|split].
  - intros Hnone. unfold deleteItem. run. by rewrite Hnone.
  - intros item Hitem Hmay.
    destruct (remove_first_find _ _ _ Hitem) as (l1 & l2 & Hl & Hrm).
    exists l1, l2. split; [done|].
    unfold deleteItem. run. rewrite Hitem, Huser.
    replace (negb (is_caller (Item.user item) ctx)
             && negb (some_included (User.permissions user) ["ADMIN"; "ITEMDELETE"]))
      with false.
    + by rewrite Hrm.
    + symmetry. apply andb_false_iff. destruct Hmay as [-> | Hperm]; [by left|].
      right. apply negb_false_iff, some_included_true.
      destruct Hperm as [Hp | Hp]; eexists; (split; [exact Hp|]); set_solver.
  - intros item Hitem Hown Hadmin Hdel. split; [|done].
    unfold deleteItem. run. rewrite Hitem, Huser, Hown.
    replace (some_included (User.permissions user) ["ADMIN"; "ITEMDELETE"]) with false;
      [done|].
    symmetry. apply some_included_false. intros x Hx.
    apply elem_of_cons in Hx as [-> | Hx]; [done|].
    by apply list_elem_of_singleton in Hx as ->.
Qed.
End DeleteItemDecision.

(** Bob, an ADMIN, deletes Alice's item A; Alice, a plain USER, may not
    delete Bob's item B. *)
Lemma deleteItem_decision_witness :
  deleteItem "A" (Sample.as_bob 0) Sample.world
  = (Resolved Sample.A, mkWorld (mkDb [Sample.alice; Sample.bob] [Sample.B] []) [])
  ∧ deleteItem "B" (Sample.as_alice 0) Sample.world
    = (Rejected (Error "You don't have permission to do that!"), Sample.world).
Proof.
  destruct (deleteItem_decision "A" (Sample.as_bob 0) Sample.world Sample.bob eq_refl)
    as (_ & Hyes & _).
  destruct (deleteItem_decision "B" (Sample.as_alice 0) Sample.world Sample.alice eq_refl)
    as (_ & _ & Hno).
  split.
  - destruct (Hyes Sample.A eq_refl) as (l1 & l2 & Hl & Hrun);
      [right; left; compute_done|].
    rewrite Hrun. vm_compute in Hrun. injection Hrun as Hrest.
    exact (f_equal (λ l, (Resolved Sample.A,
                          mkWorld (mkDb [Sample.alice; Sample.bob] l []) []))
             (eq_sym Hrest)).
  - apply (Hno Sample.B eq_refl); [reflexivity | compute_done..].
Defined.

(** ** The cart *)

Lemma in_cart_key (u i : string) (c : CartItem.t) :
  in_cart u i c = true ↔ cart_key c = (u, i).
Proof.
  unfold in_cart, cart_key. rewrite andb_true_iff, !String.eqb_eq.
  split; [by intros [-> ->] | by intros [= -> ->]].
Qed.

Lemma no_line_no_key (u i : string) (rows : list CartItem.t) :
  Forall (λ c, in_cart u i c = false) rows → (u, i) ∉ cart_key <$> rows.
Proof.
  intros Hall Hin. apply list_elem_of_fmap in Hin as (c & Hkey & Hc).
  rewrite Forall_forall in Hall. specialize (Hall c Hc).
  symmetry in Hkey. apply in_cart_key in Hkey. congruence.
Qed.

Section Cart.
Context `{Externals}.

(** The resolver is its two steps, one after the other. *)
Lemma addToCart_two_steps (i : string) (ctx : Ctx) (w : World) :
  addToCart i ctx w = (plan ← addToCart_lookup i ctx; addToCart_write plan) w.
Proof.
  unfold addToCart, addToCart_lookup, addToCart_write.
  destruct (signed_in ctx) as [u|]; [|done]. run.
  by destruct (head (List.filter (in_cart u i) (cartItems (db w)))).
Qed.

(** Calls made one after another keep the cart table well formed. *)
Lemma addToCart_serial (i : string) (ctx : Ctx) (w w' : World)
    (o : Outcome CartItem.t) :
  cart_unique (db w) →
  addToCart i ctx w = (o, w') →
  cart_unique (db w').
Proof.
  destruct w as [[us its rows] effs]. unfold cart_unique; simpl.
  intros [Hids Hkeys]. unfold addToCart.
  destruct (signed_in ctx) as [u|]; [|by intros [= <- <-]].
  run.
  destruct (head (List.filter (in_cart u i) rows)) as [c|] eqn:Hhd; simpl.
  - destruct (update_first _ _ rows) as [[y l]|] eqn:Hu; intros [= <- <-]; simpl;
      [|done].
    split.
    + by rewrite (update_first_fmap CartItem.id _ (CartItem.set_quantity _)
                    _ _ _ (λ _, eq_refl) Hu).
    + by rewrite (update_first_fmap cart_key _ (CartItem.set_quantity _)
                    _ _ _ (λ _, eq_refl) Hu).
  - apply head_filter_nil in Hhd.
    destruct (List.find (has_user_id u) us), (List.find (has_item_id i) its);
      intros [= <- <-]; simpl; try done.
    rewrite !fmap_app. simpl. split; apply NoDup_app; (split; [done|]);
      (split; [|apply NoDup_singleton]); intros x Hx Hx';
      apply list_elem_of_singleton in Hx'; subst x.
    + by apply (new_id_fresh (CartItem.id <$> rows)).
    + by apply (no_line_no_key u i rows Hhd).
Qed.

(** X6.  [addToCart] is a lookup followed by a write, and what it keeps of
    the cart table depends on what comes between the two.
    - Calls made one after another keep the table well formed: if no two
      lines share an id and no user has two lines for one item, the same
      holds after the call, whoever makes it, for whatever item, with
      whatever outcome.
    - Two calls for a pair without a line whose lookups both come before
      either write both find no line and both create one: the table ends
      with two lines of quantity 1 for the pair and is no longer well
      formed. *)
Theorem addToCart_keeps_cart_unique (i : string) (ctx : Ctx) (w : World) :
  cart_unique (db w) →
  (∀ o w', (plan ← addToCart_lookup i ctx; addToCart_write plan) w = (o, w') →
     addToCart i ctx w = (o, w') ∧ cart_unique (db w'))
  ∧ (∀ u,
       signed_in ctx = Some u →
       existsb (has_user_id u) (users (db w)) = true →
       existsb (has_item_id i) (items (db w)) = true →
       List.filter (in_cart u i) (cartItems (db w)) = [] →
       ∃ first second w1 w2,
         addToCart_lookup i ctx w = (Resolved (Create u i), w)
         ∧ addToCart_write (Create u i) w = (Resolved first, w1)
         ∧ addToCart_write (Create u i) w1 = (Resolved second, w2)
         ∧ CartItem.quantity first = 1%Z ∧ CartItem.quantity second = 1%Z
         ∧ List.filter (in_cart u i) (cartItems (db w2)) = [first; second]
         ∧ ¬ cart_unique (db w2)).
Proof.
  intros Hwf. split.
  - intros o w' Hrun. rewrite <- addToCart_two_steps in Hrun.
    split; [done | by apply (addToCart_serial i ctx w w' o)].
  - destruct w as [[us its rows] effs]; simpl in *.
    intros u Hu Hus Hit Hnone.
    destruct (find_of_existsb _ _ Hus) as [usr Husr].
    destruct (find_of_existsb _ _ Hit) as [itm Hitm].
    pose (first := CartItem.mk (new_id (CartItem.id <$> rows))
                     CartItem_default_quantity u i).
    pose (second := CartItem.mk (new_id (CartItem.id <$> rows ++ [first]))
                      CartItem_default_quantity u i).
    exists first, second, (mkWorld (mkDb us its (rows ++ [first])) effs),
      (mkWorld (mkDb us its ((rows ++ [first]) ++ [second])) effs).
    split; [|split; [|split; [|split; [done|split; [done|split]]]]].
    + unfold addToCart_lookup. rewrite Hu. run. by rewrite Hnone.
    + unfold addToCart_write. run. by rewrite Husr, Hitm.
    + unfold addToCart_write. run. by rewrite Husr, Hitm.
    + simpl. rewrite !List.filter_app, Hnone. simpl.
      unfold in_cart; simpl. by rewrite !String.eqb_refl.
    + unfold cart_unique. simpl. intros [_ Hkeys].
      rewrite <- app_assoc, fmap_app in Hkeys.
      apply NoDup_app in Hkeys as (_ & _ & Hpair). simpl in Hpair.
      apply NoDup_cons in Hpair as [Hnot _]. apply Hnot. left.
Qed.


(** X8.  Adding and removing are inverse.  When a signed-in caller adds an
    item they had no line for and then removes the line [addToCart]
    returned, [removeFromCart] gives that line back and the world is exactly
    the world before the two calls. *)
Theorem addToCart_then_removeFromCart (i u : string) (ctx : Ctx) (w : World) :
  signed_in ctx = Some u →
  existsb (has_user_id u) (users (db w)) = true →
  existsb (has_item_id i) (items (db w)) = true →
  List.filter (in_cart u i) (cartItems (db w)) = [] →
  ∃ row w1,
    addToCart i ctx w = (Resolved row, w1)
    ∧ w1 ≠ w
    ∧ removeFromCart (CartItem.id row) ctx w1 = (Resolved row, w).
Proof.
  destruct w as [[us its rows] effs]; simpl.
  intros Hu Hus Hit Hnone.
  destruct (find_of_existsb _ _ Hus) as [usr Husr].
  destruct (find_of_existsb _ _ Hit) as [itm Hitm].
  destruct (signed_in_Some _ _ Hu) as [Hid _].
  pose (row := CartItem.mk (new_id (CartItem.id <$> rows)) CartItem_default_quantity u i).
  exists row, (mkWorld (mkDb us its (rows ++ [row])) effs).
  split; [|split].
  - unfold addToCart. rewrite Hu. run. rewrite Hnone. simpl.
    by rewrite Husr, Hitm.
  - intros [= Heq]. apply (f_equal length) in Heq.
    rewrite length_app in Heq. simpl in Heq. lia.
  - unfold removeFromCart. run.
    rewrite (find_split _ rows [] row (new_cartItem_id_unused rows)
               (String.eqb_refl _)).
    unfold is_caller. rewrite Hid. simpl. rewrite String.eqb_refl. simpl.
    rewrite (remove_first_split _ rows [] row (new_cartItem_id_unused rows)
               (String.eqb_refl _)).
    by rewrite app_nil_r.
Qed.

(** X9.  A request without a [userId] never removes a cart line: whatever
    id it names, [removeFromCart] rejects, with "No CartItem Found!" when no
    line has that id and with "Cheatin huhhhh" otherwise, and changes
    nothing. *)
Theorem removeFromCart_anonymous (i : string) (ctx : Ctx) (w : World) :
  Request.userId (request ctx) = None →
  removeFromCart i ctx w
  = (Rejected (Error (match List.find (has_cartItem_id i) (cartItems (db w)) with
                      | Some _ => "Cheatin huhhhh"
                      | None => "No CartItem Found!"
                      end)), w).
Proof.
  intros Hanon. unfold removeFromCart. run.
  destruct (List.find (has_cartItem_id i) (cartItems (db w))); [|done].
  unfold is_caller. by rewrite Hanon.
Qed.
End Cart.

(** Bob adds B to the shop's cart table, once on his own and once twice at
    the same time. *)
Lemma addToCart_keeps_cart_unique_witness :
  cart_unique Sample.shop_with_cart
  ∧ (∃ o w', addToCart (H := Sample.externals) "B" (Sample.as_bob 0)
               (mkWorld Sample.shop_with_cart []) = (o, w')
             ∧ length (cartItems (db w')) = 3%nat
             ∧ cart_unique (db w'))
  ∧ (∃ first second w1 w2,
       addToCart_write (H := Sample.externals) (Create "u2" "B")
         (mkWorld Sample.shop_with_cart []) = (Resolved first, w1)
       ∧ addToCart_write (H := Sample.externals) (Create "u2" "B") w1
         = (Resolved second, w2)
       ∧ List.filter (in_cart "u2" "B") (cartItems (db w2)) = [first; second]
       ∧ ¬ cart_unique (db w2)).
Proof.
  assert (Hwf : cart_unique Sample.shop_with_cart) by (split; compute_done).
  destruct (addToCart_keeps_cart_unique (H := Sample.externals) "B" (Sample.as_bob 0)
              (mkWorld Sample.shop_with_cart []) Hwf) as [Hserial Hrace].
  split; [exact Hwf|]. split.
  - eexists _, _. split; [vm_compute; reflexivity|]. split; [reflexivity|].
    eapply Hserial. vm_compute; reflexivity.
  - destruct (Hrace "u2" eq_refl eq_refl eq_refl eq_refl)
      as (first & second & w1 & w2 & _ & H1 & H2 & _ & _ & Hsel & Hbad).
    by exists first, second, w1, w2.
Defined.


Lemma addToCart_then_removeFromCart_witness :
  ∃ row w1,
    addToCart (H := Sample.externals) "B" (Sample.as_alice 0) Sample.world
      = (Resolved row, w1)
    ∧ w1 ≠ Sample.world
    ∧ removeFromCart (CartItem.id row) (Sample.as_alice 0) w1
      = (Resolved row, Sample.world).
Proof.
  apply (addToCart_then_removeFromCart (H := Sample.externals) "B" "u1"
           (Sample.as_alice 0) Sample.world); reflexivity.
Defined.

Lemma removeFromCart_anonymous_witness :
  removeFromCart "c1" (Sample.anonymous 0) (mkWorld Sample.shop_with_cart [])
  = (Rejected (Error "Cheatin huhhhh"), mkWorld Sample.shop_with_cart [])
  ∧ removeFromCart "c9" (Sample.anonymous 0) (mkWorld Sample.shop_with_cart [])
    = (Rejected (Error "No CartItem Found!"), mkWorld Sample.shop_with_cart []).
Proof.
  split.
  - apply (removeFromCart_anonymous "c1" (Sample.anonymous 0)
             (mkWorld Sample.shop_with_cart []) eq_refl).
  - apply (removeFromCart_anonymous "c9" (Sample.anonymous 0)
             (mkWorld Sample.shop_with_cart []) eq_refl).
Defined.

(** ** Checkout *)

Lemma cart_total_Permutation (cart cart' : list CartLine) :
  cart ≡ₚ cart' → cart_total cart = cart_total cart'.
Proof.
  unfold cart_total.
  induction 1 as [|l c1 c2 _ IH|l1 l2 c|c1 c2 c3 _ IH1 _ IH2]; simpl; lia.
Qed.

Lemma cart_total_nonneg (cart : list CartLine) :
  Forall (λ l, ∀ item, l.2 = Some item →
               (0 ≤ Item.price item)%Z ∧ (0 ≤ CartItem.quantity l.1)%Z) cart →
  (0 ≤ cart_total cart)%Z.
Proof.
  unfold cart_total.
  induction 1 as [|[c [item|]] cart Hl _ IH]; simpl; [lia| |lia].
  destruct (Hl item eq_refl). simpl in *. nia.
Qed.

Lemma nonneg_stays_exact (cart : list CartLine) (tally : Z) :
  Forall (λ l, is_Some l.2) cart →
  Forall (λ l, ∀ item, l.2 = Some item →
               (0 ≤ Item.price item)%Z ∧ (0 ≤ CartItem.quantity l.1)%Z) cart →
  (0 ≤ tally)%Z → (tally + cart_total cart < 2 ^ 53)%Z →
  stays_exact tally cart = true.
Proof.
  intros Hall. revert tally.
  induction Hall as [|[c o] cart [item Hitem] _ IH]; intros tally Hpos Htally Hsum;
    simpl; [done|].
  simpl in Hitem. subst o. apply Forall_cons in Hpos as [Hl Hpos].
  destruct (Hl item eq_refl) as [Hp Hq]. simpl in Hp, Hq.
  pose proof (cart_total_nonneg _ Hpos) as Hrest.
  unfold cart_total in Hsum. simpl in Hsum. fold (cart_total cart) in Hsum.
  assert (0 ≤ Item.price item * CartItem.quantity c)%Z by nia.
  rewrite !andb_true_iff. split; [split|].
  - unfold safe_integer. apply Z.ltb_lt. lia.
  - unfold safe_integer. apply Z.ltb_lt. lia.
  - apply IH; [done | lia | lia].
Qed.

(** X10.  As long as no price and no quantity is negative and the sum of the
    cart is below 2^53, the total that [createOrder] computes from a cart
    whose lines all carry their item is that sum, in whatever order the
    database returns the lines.  (Above 2^53 the additions round, and the
    order of the lines shows in the amount.) *)
Theorem reduce_cart_order (cart cart' : list CartLine) :
  Forall (λ l, is_Some l.2) cart →
  Forall (λ l, ∀ item, l.2 = Some item →
               (0 ≤ Item.price item)%Z ∧ (0 ≤ CartItem.quantity l.1)%Z) cart →
  (cart_total cart < 2 ^ 53)%Z →
  cart ≡ₚ cart' →
  reduce_cart 0 cart = Resolved (cart_total cart)
  ∧ reduce_cart 0 cart' = Resolved (cart_total cart).
Proof.
  intros Hall Hpos Hsum Hperm.
  assert (Hall' : Forall (λ l, is_Some l.2) cart') by (by rewrite <- Hperm).
  assert (Hpos' : Forall (λ l, ∀ item, l.2 = Some item →
                    (0 ≤ Item.price item)%Z ∧ (0 ≤ CartItem.quantity l.1)%Z) cart')
    by (by rewrite <- Hperm).
  pose proof (cart_total_Permutation _ _ Hperm) as Hsame.
  split.
  - by rewrite (reduce_cart_total _ 0 Hall (nonneg_stays_exact _ 0 Hall Hpos (Z.le_refl 0) Hsum)).
  - rewrite (reduce_cart_total _ 0 Hall'); [by rewrite Hsame|].
    apply nonneg_stays_exact; [done | done | done | by rewrite <- Hsame].
Qed.

Lemma reduce_cart_order_witness :
  reduce_cart 0 (cart_of Sample.shop_with_cart "u1") = Resolved 1300%Z
  ∧ reduce_cart 0 (reverse (cart_of Sample.shop_with_cart "u1")) = Resolved 1300%Z.
Proof.
  apply (reduce_cart_order (cart_of Sample.shop_with_cart "u1")
           (reverse (cart_of Sample.shop_with_cart "u1"))).
  - repeat constructor; by eexists.
  - repeat constructor; simpl in *; simplify_eq; simpl; lia.
  - vm_compute. reflexivity.
  - by rewrite reverse_Permutation.
Defined.

(** Above 2^53 the order of the lines shows: one line worth 2^53 and two
    lines worth 1, all prices and quantities being 32-bit integers. *)
Example reduce_cart_order_shows_when_rounded :
  let line (id : string) (price quantity : Z) : CartLine :=
    (CartItem.mk id quantity "u1" id, Some (Item.mk id id "" "" price "u1")) in
  reduce_cart 0 [line "big" 134217728%Z 67108864%Z; line "a" 1%Z 1%Z; line "b" 1%Z 1%Z]
  = Resolved 9007199254740992%Z
  ∧ reduce_cart 0 [line "a" 1%Z 1%Z; line "b" 1%Z 1%Z; line "big" 134217728%Z 67108864%Z]
    = Resolved 9007199254740994%Z.
Proof. split; vm_compute; reflexivity. Qed.

Section Checkout.
Context `{Externals}.


(** X12.  [createOrder] submits no charge when it cannot read the cart: for
    a signed-in caller whose user row is gone, or who has a cart line whose
    item is gone, the call ends in a TypeError and the world, trace of
    effects included, is as before. *)
Theorem createOrder_unreadable_cart (token u : string) (ctx : Ctx) (w : World) :
  signed_in ctx = Some u →
  List.find (has_user_id u) (users (db w)) = None
  ∨ Exists (λ l, l.2 = None) (cart_of (db w) u) →
  ∃ message, createOrder token ctx w = (Rejected (TypeError message), w).
Proof.
  intros Hu Hbad. unfold createOrder. rewrite Hu. run.
  destruct (List.find (has_user_id u) (users (db w))) as [usr|] eqn:Husr; simpl.
  - destruct Hbad as [|Hex]; [discriminate|].
    rewrite (reduce_cart_dangling _ 0 Hex). simpl. eauto.
  - eauto.
Qed.
End Checkout.

(** Alice's item A is gone from the shop while two of it sit in her cart. *)
Lemma createOrder_unreadable_cart_witness :
  let d := mkDb [Sample.alice; Sample.bob] [Sample.B] (cartItems Sample.shop_with_cart) in
  createOrder (H := Sample.externals) "tok_visa" (Sample.as_alice 0) (mkWorld d [])
  = (Rejected (TypeError "Cannot read property 'price' of null"), mkWorld d []).
Proof.
  intros d.
  destruct (createOrder_unreadable_cart (H := Sample.externals) "tok_visa" "u1"
              (Sample.as_alice 0) (mkWorld d []) eq_refl) as [message Hrun].
  - right. left. reflexivity.
  - rewrite Hrun. vm_compute in Hrun. by injection Hrun as <-.
Defined.


(** ** Accounts *)

Lemma lower_ascii_idempotent (c : ascii) : lower_ascii (lower_ascii c) = lower_ascii c.
Proof. unfold lower_ascii at 1. by rewrite lower_ascii_not_upper. Qed.

Lemma toLowerCase_idempotent (s : string) : toLowerCase (toLowerCase s) = toLowerCase s.
Proof.
  induction s as [|c s IH]; simpl; [done|]. by rewrite lower_ascii_idempotent, IH.
Qed.

Lemma find_app_None {A} (p : A → bool) (l : list A) (x : A) :
  existsb p l = false → p x = true → List.find p (l ++ [x]) = Some x.
Proof.
  intros Hno Hx. apply find_split; [|done].
  apply Forall_forall. intros y Hy.
  destruct (p y) eqn:Hp; [|done].
  assert (existsb p l = true); [|congruence].
  apply existsb_exists. exists y. split; [by apply list_elem_of_In | done].
Qed.

Section Accounts.
Context `{Externals}.

(** Every way [signup] can end: either the database is as it was, or a row
    built from the payload was appended and returned. *)
Lemma signup_outcome (args : Obj) (ctx : Ctx) (w w' : World) (o : Outcome User.t) :
  signup args ctx w = (o, w') →
  (db w' = db w ∧ ∃ e, o = Rejected e)
  ∨ ∃ email password u,
      args !! "email" = Some (VStr email)
      ∧ args !! "password" = Some (VStr password)
      ∧ User.create (new_id (User.id <$> users (db w)))
          (signup_data email password args) = Some u
      ∧ existsb (has_user_email (User.email u)) (users (db w)) = false
      ∧ o = Resolved u
      ∧ w' = mkWorld (mkDb (users (db w) ++ [u]) (items (db w)) (cartItems (db w)))
               (effects w ++ [SetCookie "token" (jwt_sign (User.id u) APP_SECRET)
                                        true 31536000000]).
Proof.
  unfold signup.
  destruct (args !! "email") as [[| |email| |]|] eqn:He;
    try (intros [= <- <-]; left; eauto).
  destruct (args !! "password") as [[| |password| |]|] eqn:Hp;
    try (intros [= <- <-]; left; eauto).
  run.
  destruct (User.create _ _) as [u|] eqn:Hc; [|intros [= <- <-]; left; eauto].
  destruct (existsb _ _) eqn:Hdup; simpl; intros [= <- <-]; [left; eauto|].
  right. exists email, password, u. done.
Qed.

(** X13.  Signing up and then signing in.  After a successful [signup] with
    email [e] and password [p], and with a hasher whose [compare] accepts a
    password against its own hash, [signin] with the lowercased [e] and [p]
    returns the very row [signup] returned and sets the session cookie. *)
Theorem signup_then_signin (args : Obj) (ctx ctx' : Ctx) (w w1 : World)
    (e p : string) (u : User.t) :
  args !! "email" = Some (VStr e) →
  args !! "password" = Some (VStr p) →
  bcrypt_compare p (bcrypt_hash p 10) = true →
  signup args ctx w = (Resolved u, w1) →
  signin (SigninArgs.mk (toLowerCase e) p) ctx' w1
  = (Resolved u,
     mkWorld (db w1)
       (effects w1 ++ [SetCookie "token" (jwt_sign (User.id u) APP_SECRET)
                                 true 31536000000])).
Proof.
  intros He Hp Hcmp Hrun.
  destruct (signup_outcome _ _ _ _ _ Hrun)
    as [[_ [? ?]] | (e' & p' & u' & He' & Hp' & Hc & Hfree & Ho & ->)]; [done|].
  injection Ho as <-. rewrite He in He'. rewrite Hp in Hp'.
  injection He' as <-. injection Hp' as <-.
  apply User_create_Some in Hc as (_ & Hem & Hpw & _).
  unfold signup_data in Hem, Hpw.
  rewrite !lookup_insert_ne in Hem by done. rewrite lookup_insert_eq in Hem.
  rewrite lookup_insert_ne in Hpw by done. rewrite lookup_insert_eq in Hpw.
  injection Hem as Hem. injection Hpw as Hpw.
  unfold signin. run. rewrite Hem.
  rewrite (find_app_None _ _ u Hfree (String.eqb_refl _)). simpl.
  by rewrite <- Hpw, Hcmp.
Qed.

(** X14.  [signup] keeps the user table in shape: if every stored email is
    lowercase and no two rows share an email, the same is true after any call
    of [signup], whatever the arguments and whether it succeeds or not.  The
    email is lowercased before the database is asked, so the database's
    refusal of a second row with the same email also covers the same email
    in another spelling. *)
Theorem signup_keeps_emails (args : Obj) (ctx : Ctx) (w w' : World)
    (o : Outcome User.t) :
  lowercase_emails (db w) →
  unique_emails (db w) →
  signup args ctx w = (o, w') →
  lowercase_emails (db w') ∧ unique_emails (db w').
Proof.
  intros Hlow Huniq Hrun.
  destruct (signup_outcome _ _ _ _ _ Hrun)
    as [[-> _] | (e & p & u & He & Hp & Hc & Hfree & _ & ->)]; [done|].
  apply User_create_Some in Hc as (_ & Hem & _).
  unfold signup_data in Hem.
  rewrite !lookup_insert_ne in Hem by done. rewrite lookup_insert_eq in Hem.
  injection Hem as Hem.
  unfold lowercase_emails, unique_emails in *. simpl. split.
  - apply Forall_app. split; [done|]. constructor; [|done].
    by rewrite <- Hem, toLowerCase_idempotent.
  - rewrite fmap_app. apply NoDup_app. split; [done|]. split; [|apply NoDup_singleton].
    intros x Hx Hx'. apply list_elem_of_singleton in Hx' as ->.
    apply list_elem_of_fmap in Hx as (y & Hy & Hin).
    assert (existsb (has_user_email (User.email u)) (users (db w)) = true); [|congruence].
    apply existsb_exists. exists y. split; [by apply list_elem_of_In|].
    unfold has_user_email. rewrite Hy. apply String.eqb_refl.
Qed.

(** X15.  Emails are looked up as typed.  On a user table whose emails are
    all lowercase, which is how [signup] writes them, [signin] and
    [requestReset] reject every email spelled with a capital letter with "No
    such user found for email ...", also the spelling the user signed up
    with; nothing is changed and no mail is sent. *)
Theorem lookups_are_case_sensitive (e : string) (ctx : Ctx) (w : World) :
  lowercase_emails (db w) →
  toLowerCase e ≠ e →
  (∀ p, signin (SigninArgs.mk e p) ctx w = (Rejected (Error (no_such_user +:+ e)), w))
  ∧ requestReset e ctx w = (Rejected (Error (no_such_user +:+ e)), w).
Proof.
  intros Hlow Hcap.
  assert (Hnone : List.find (has_user_email e) (users (db w)) = None).
  { apply find_None_Forall. eapply Forall_impl; [exact Hlow|].
    intros u Hu. simpl in Hu. unfold has_user_email.
    apply String.eqb_neq. intros Heq. rewrite Heq in Hu. done. }
  split.
  - intros p. unfold signin. run. by rewrite Hnone.
  - unfold requestReset. run. by rewrite Hnone.
Qed.
End Accounts.

(** Carol signs up as Carol@X.org and signs in as carol@x.org. *)
Lemma signup_then_signin_witness :
  let args : Obj :=
    <["email" := VStr "Carol@X.org"]> (<["password" := VStr "hunter2"]>
    {[ "name" := VStr "Carol" ]}) in
  ∃ u w1 w2,
    signup (H := Sample.externals) args (Sample.anonymous 0) Sample.world
      = (Resolved u, w1)
    ∧ signin (H := Sample.externals) (SigninArgs.mk "carol@x.org" "hunter2")
        (Sample.anonymous 5) w1 = (Resolved u, w2).
Proof.
  intros args. eexists _, _, _. split; [vm_compute; reflexivity|].
  apply (signup_then_signin (H := Sample.externals) args (Sample.anonymous 0)
           (Sample.anonymous 5) Sample.world _ "Carol@X.org" "hunter2" _
           eq_refl eq_refl eq_refl).
  vm_compute; reflexivity.
Defined.

Lemma signup_keeps_emails_witness :
  let args : Obj :=
    <["email" := VStr "Carol@X.org"]> (<["password" := VStr "hunter2"]>
    {[ "name" := VStr "Carol" ]}) in
  lowercase_emails Sample.shop ∧ unique_emails Sample.shop
  ∧ ∃ o w', signup (H := Sample.externals) args (Sample.anonymous 0) Sample.world
              = (o, w')
            ∧ length (users (db w')) = 3%nat
            ∧ lowercase_emails (db w') ∧ unique_emails (db w').
Proof.
  intros args.
  assert (Hlow : lowercase_emails Sample.shop) by (repeat constructor).
  assert (Huniq : unique_emails Sample.shop) by compute_done.
  split; [exact Hlow|]. split; [exact Huniq|].
  eexists _, _. split; [vm_compute; reflexivity|]. split; [reflexivity|].
  eapply (signup_keeps_emails (H := Sample.externals) args (Sample.anonymous 0)
            Sample.world); [exact Hlow | exact Huniq | vm_compute; reflexivity].
Defined.

(** Alice cannot sign in, nor ask for a reset, as Alice@x.org. *)
Lemma lookups_are_case_sensitive_witness :
  signin (H := Sample.externals) (SigninArgs.mk "Alice@x.org" "wonderland")
    (Sample.anonymous 0) Sample.world
  = (Rejected (Error "No such user found for email Alice@x.org"), Sample.world)
  ∧ requestReset (H := Sample.externals) "Alice@x.org" (Sample.anonymous 0) Sample.world
    = (Rejected (Error "No such user found for email Alice@x.org"), Sample.world).
Proof.
  destruct (lookups_are_case_sensitive (H := Sample.externals) "Alice@x.org"
              (Sample.anonymous 0) Sample.world) as [Hin Hreset].
  - repeat constructor.
  - discriminate.
  - split; [apply Hin | exact Hreset].
Defined.

(** ** Password reset, end to end *)

Lemma no_token_not_pending (tok : string) (bound : Z) (u : User.t) :
  has_token tok u = false → reset_pending tok bound u = false.
Proof.
  unfold has_token, reset_pending.
  destruct (User.resetToken u), (User.resetTokenExpiry u); try done.
  by intros ->.
Qed.

Lemma pending_has_token (tok : string) (bound : Z) (u : User.t) :
  reset_pending tok bound u = true → has_token tok u = true.
Proof.
  intros Hp. destruct (has_token tok u) eqn:Ht; [done|].
  by rewrite (no_token_not_pending _ bound _ Ht) in Hp.
Qed.

Lemma filter_split_one {A} (p : A → bool) (l1 l2 : list A) (x : A) :
  Forall (λ z, p z = false) l1 → Forall (λ z, p z = false) l2 →
  List.filter p (l1 ++ x :: l2) = if p x then [x] else [].
Proof.
  intros H1 H2. rewrite List.filter_app. simpl.
  rewrite (filter_Forall_nil _ _ H1), (filter_Forall_nil _ _ H2).
  by destruct (p x).
Qed.

Lemma filter_length_one {A} (p : A → bool) (l1 l2 : list A) (x : A) :
  p x = true → (length (List.filter p (l1 ++ x :: l2)) ≤ 1)%nat →
  Forall (λ z, p z = false) l1 ∧ Forall (λ z, p z = false) l2.
Proof.
  intros Hx. rewrite List.filter_app. simpl. rewrite Hx, length_app. simpl.
  intros Hlen. split; apply filter_nil_Forall.
  - destruct (List.filter p l1); [done | simpl in Hlen; lia].
  - destruct (List.filter p l2); [done | simpl in Hlen; lia].
Qed.

Section ResetRoundTrip.
Context `{Externals}.

(** What a successful [resetPassword] did, on a table with unique emails. *)
Lemma resetPassword_resolved (args : ResetArgs.t) (ctx : Ctx) (w w' : World)
    (u : User.t) :
  unique_emails (db w) →
  resetPassword args ctx w = (Resolved u, w') →
  ∃ user l1 l2,
    users (db w) = l1 ++ user :: l2
    ∧ reset_pending (ResetArgs.resetToken args) (Date_now ctx - 3600000) user = true
    ∧ u = User.set_reset None None
            (User.set_password (bcrypt_hash (ResetArgs.password args) 10) user)
    ∧ users (db w') = l1 ++ u :: l2.
Proof.
  intros Hnd. unfold resetPassword.
  destruct (String.eqb _ _); simpl; [|discriminate]. run.
  destruct (head (List.filter _ (users (db w)))) as [user|] eqn:Hhd; [|discriminate].
  apply head_filter_Some in Hhd as [Hin Hp].
  pose proof (find_by_own_email _ _ Hnd Hin) as Hfind.
  destruct (update_first_find _
              (λ x, User.set_reset None None
                      (User.set_password (bcrypt_hash (ResetArgs.password args) 10) x))
              _ _ Hfind) as (l1 & l2 & Hl & Hupd).
  simpl in *. rewrite Hupd. intros [= <- <-]. by exists user, l1, l2.
Qed.

(** X16.  From request to reset.  [requestReset] has been called for an
    existing user at time [t], when no row carried the token it drew;
    whether or not the mail went out, [resetPassword] with that token and
    matching passwords
    - succeeds at every time up to [t + 7200000], two hours after the
      request, and returns the user with the new hash and no token;
    - fails with "This token is either invalid or expired!" at every later
      time. *)
Theorem requestReset_then_resetPassword (email p : string) (ctx ctx' : Ctx)
    (w : World) (user : User.t) :
  List.find (has_user_email email) (users (db w)) = Some user →
  Forall (λ x, has_token (randomBytes_hex 20) x = false) (users (db w)) →
  let w1 := snd (requestReset email ctx w) in
  let args := ResetArgs.mk (randomBytes_hex 20) p p in
  ((Date_now ctx' ≤ Date_now ctx + 7200000)%Z →
     ∃ w2, resetPassword args ctx' w1
           = (Resolved (User.set_reset None None
                          (User.set_password (bcrypt_hash p 10) user)), w2))
  ∧ ((Date_now ctx + 7200000 < Date_now ctx')%Z →
     resetPassword args ctx' w1
     = (Rejected (Error "This token is either invalid or expired!"), w1)).
Proof.
  intros Hfind Hfresh w1 args.
  destruct (find_Some_split _ _ _ Hfind) as (Hmail & l1 & l2 & Hl & Hl1).
  pose proof Hmail as Hsame. apply String.eqb_eq in Hsame. subst email.
  set (tok := randomBytes_hex 20) in *.
  set (stored := User.set_reset (Some tok) (Some (Date_now ctx + 3600000)%Z) user).
  assert (Hw1 : users (db w1) = l1 ++ stored :: l2).
  { unfold w1, requestReset. run. rewrite Hfind. simpl.
    rewrite Hl, (update_first_split _ _ l1 l2 user Hl1 Hmail). simpl.
    by destruct (transport_sendMail _). }
  rewrite Hl in Hfresh. apply Forall_app in Hfresh as [Hf1 Hf2].
  apply Forall_cons in Hf2 as [_ Hf2].
  assert (Hsel : ∀ bound, List.filter (reset_pending tok bound) (users (db w1))
                          = if (bound <=? Date_now ctx + 3600000)%Z then [stored] else []).
  { intros bound. rewrite Hw1, filter_split_one.
    - unfold reset_pending, stored. simpl. by rewrite String.eqb_refl.
    - eapply Forall_impl; [exact Hf1|]. intros x. apply no_token_not_pending.
    - eapply Forall_impl; [exact Hf2|]. intros x. apply no_token_not_pending. }
  split.
  - intros Hin. unfold resetPassword, args. simpl. rewrite String.eqb_refl. run.
    fold tok. rewrite Hsel.
    replace (Date_now ctx' - 3600000 <=? Date_now ctx + 3600000)%Z with true
      by (symmetry; apply Z.leb_le; lia).
    simpl. rewrite Hw1.
    rewrite (update_first_split _ _ l1 l2 stored Hl1 Hmail). simpl.
    destruct user. eauto.
  - intros Hlate. unfold resetPassword, args. simpl. rewrite String.eqb_refl. run.
    fold tok. rewrite Hsel.
    replace (Date_now ctx' - 3600000 <=? Date_now ctx + 3600000)%Z with false
      by (symmetry; apply Z.leb_gt; lia).
    done.
Qed.

(** X17.  A reset token works once.  On a table with unique emails in which
    at most one row carries the token: after a successful [resetPassword],
    every further [resetPassword] with the same token is rejected, whatever
    the passwords and the time, and changes nothing. *)
Theorem resetPassword_single_use (args args2 : ResetArgs.t) (ctx ctx2 : Ctx)
    (w w1 : World) (u : User.t) :
  unique_emails (db w) →
  (length (List.filter (has_token (ResetArgs.resetToken args)) (users (db w))) ≤ 1)%nat →
  resetPassword args ctx w = (Resolved u, w1) →
  ResetArgs.resetToken args2 = ResetArgs.resetToken args →
  ∃ message, resetPassword args2 ctx2 w1 = (Rejected (Error message), w1).
Proof.
  intros Hnd Hone Hrun Htok.
  destruct (resetPassword_resolved _ _ _ _ _ Hnd Hrun)
    as (user & l1 & l2 & Hl & Hp & Hu & Hl').
  rewrite Hl in Hone.
  destruct (filter_length_one _ l1 l2 user (pending_has_token _ _ _ Hp) Hone)
    as [Hf1 Hf2].
  unfold resetPassword. destruct (String.eqb _ _); simpl; [|eauto]. run.
  rewrite Htok, Hl', filter_split_one.
  - rewrite Hu. simpl. eauto.
  - eapply Forall_impl; [exact Hf1|]. intros x. apply no_token_not_pending.
  - eapply Forall_impl; [exact Hf2|]. intros x. apply no_token_not_pending.
Qed.
End ResetRoundTrip.

(** Alice asks for a reset at time 1000 while the mail server is down; the
    token drawn then lets her set a new password at time 7201000, and not a
    millisecond later. *)
Lemma requestReset_then_resetPassword_witness :
  let tok := "5f1d09a47c3e8b6620aa5f1d09a47c3e8b6620aa" in
  let w1 := snd (requestReset (H := Sample.mail_down) "alice@x.org"
                   (Sample.anonymous 1000) Sample.world) in
  (∃ w2, resetPassword (H := Sample.mail_down) (ResetArgs.mk tok "rabbit" "rabbit")
           (Sample.anonymous 7201000) w1
         = (Resolved (User.mk "u1" "Alice" "alice@x.org" "$2a$10$rabbit" None None
                              ["USER"]), w2))
  ∧ resetPassword (H := Sample.mail_down) (ResetArgs.mk tok "rabbit" "rabbit")
      (Sample.anonymous 7201001) w1
    = (Rejected (Error "This token is either invalid or expired!"), w1).
Proof.
  intros tok w1. split.
  - apply (requestReset_then_resetPassword (H := Sample.mail_down) "alice@x.org"
             "rabbit" (Sample.anonymous 1000) (Sample.anonymous 7201000)
             Sample.world Sample.alice eq_refl); [repeat constructor | simpl; lia].
  - apply (requestReset_then_resetPassword (H := Sample.mail_down) "alice@x.org"
             "rabbit" (Sample.anonymous 1000) (Sample.anonymous 7201001)
             Sample.world Sample.alice eq_refl); [repeat constructor | simpl; lia].
Defined.

(** Bob's token "tok" is spent by the first reset. *)
Lemma resetPassword_single_use_witness :
  ∃ u w1,
    resetPassword (H := Sample.externals) (ResetArgs.mk "tok" "brick" "brick")
      (Sample.anonymous 1000) Sample.world = (Resolved u, w1)
    ∧ ∃ message,
        resetPassword (H := Sample.externals) (ResetArgs.mk "tok" "mortar" "mortar")
          (Sample.anonymous 1001) w1 = (Rejected (Error message), w1).
Proof.
  eexists _, _. split; [vm_compute; reflexivity|].
  eapply (resetPassword_single_use (H := Sample.externals)
            (ResetArgs.mk "tok" "brick" "brick") _ (Sample.anonymous 1000) _
            Sample.world);
    [compute_done | vm_compute; lia | vm_compute; reflexivity | reflexivity].
Defined.

(** ** Permissions are read from the database *)

(** X18.  [updatePermissions] checks the caller's row in the database, not
    the record on the request.  A caller holding ADMIN or PERMISSIONUPDATE
    who overwrites their own permissions with a list holding neither
    succeeds, and from then on every [updatePermissions] in the same session
    is refused and changes nothing, whatever the record attached to the
    request still says. *)
Theorem updatePermissions_self_demotion (ctx : Ctx) (w : World) (userId : string)
    (caller : User.t) (permissions : list string) :
  signed_in ctx = Some userId →
  List.find (has_user_id userId) (users (db w)) = Some caller →
  "ADMIN" ∈ User.permissions caller ∨ "PERMISSIONUPDATE" ∈ User.permissions caller →
  "ADMIN" ∉ permissions →
  "PERMISSIONUPDATE" ∉ permissions →
  ∃ w1,
    updatePermissions (PermissionArgs.mk userId permissions) ctx w
    = (Resolved (User.set_permissions permissions caller), w1)
    ∧ ∀ args attached,
        updatePermissions args
          (mkCtx (Request.mk (Request.userId (request ctx)) attached) (Date_now ctx)) w1
        = (Rejected (Error insufficient_permissions), w1).
Proof.
  intros Hin Hfind Hmay Hadmin Hupdate.
  destruct (find_Some_split _ _ _ Hfind) as (Hid & l1 & l2 & Hl & Hl1).
  eexists. split.
  - unfold updatePermissions. rewrite Hin. run. rewrite Hfind.
    unfold hasPermission.
    replace (some_included (User.permissions caller) ["ADMIN"; "PERMISSIONUPDATE"])
      with true.
    + simpl. rewrite Hl, (update_first_split _ _ l1 l2 caller Hl1 Hid). reflexivity.
    + symmetry. apply some_included_true.
      destruct Hmay as [Hp | Hp]; eexists; (split; [exact Hp|]); set_solver.
  - intros args attached. unfold updatePermissions.
    replace (signed_in _) with (Some userId) by (rewrite <- Hin; reflexivity).
    run.
    rewrite (find_split (has_user_id userId) l1 l2
               (User.set_permissions permissions caller) Hl1 Hid).
    unfold hasPermission. simpl.
    replace (some_included permissions ["ADMIN"; "PERMISSIONUPDATE"]) with false;
      [done|].
    symmetry. apply some_included_false. intros x Hx.
    apply elem_of_cons in Hx as [-> | Hx]; [done|].
    by apply list_elem_of_singleton in Hx as ->.
Qed.

(** Bob gives up ADMIN; the record on his request still lists it. *)
Lemma updatePermissions_self_demotion_witness :
  ∃ w1,
    updatePermissions (PermissionArgs.mk "u2" ["USER"]) (Sample.as_bob 0) Sample.world
    = (Resolved (User.set_permissions ["USER"] Sample.bob), w1)
    ∧ updatePermissions (PermissionArgs.mk "u1" ["ADMIN"]) (Sample.as_bob 0) w1
      = (Rejected (Error insufficient_permissions), w1).
Proof.
  destruct (updatePermissions_self_demotion (Sample.as_bob 0) Sample.world "u2"
              Sample.bob ["USER"]) as (w1 & Hrun & Hafter);
    [reflexivity | reflexivity | left; compute_done | compute_done | compute_done |].
  exists w1. split; [exact Hrun|].
  apply (Hafter (PermissionArgs.mk "u1" ["ADMIN"]) (Some Sample.bob)).
Defined.

(** ** What the user updates leave alone *)

Section UserUpdates.
Context `{Externals}.

(** X19.  The three resolvers that update a user row never add, remove or
    reorder users, never change an id, a name or an email, and never touch
    items or cart lines, whatever their outcome.  Beyond that,
    [requestReset] changes no password and no permission set,
    [resetPassword] changes no permission set, and [updatePermissions]
    changes no password, reset token or expiry. *)
Theorem user_updates_keep_identity (ctx : Ctx) (w w' : World) :
  let same_shop :=
    identity_of <$> users (db w') = identity_of <$> users (db w)
    ∧ items (db w') = items (db w) ∧ cartItems (db w') = cartItems (db w) in
  (∀ email o, requestReset email ctx w = (o, w') →
     same_shop
     ∧ User.password <$> users (db w') = User.password <$> users (db w)
     ∧ User.permissions <$> users (db w') = User.permissions <$> users (db w))
  ∧ (∀ args o, resetPassword args ctx w = (o, w') →
       same_shop
       ∧ User.permissions <$> users (db w') = User.permissions <$> users (db w))
  ∧ (∀ args o, updatePermissions args ctx w = (o, w') →
       same_shop
       ∧ User.password <$> users (db w') = User.password <$> users (db w)
       ∧ User.resetToken <$> users (db w') = User.resetToken <$> users (db w)
       ∧ User.resetTokenExpiry <$> users (db w') = User.resetTokenExpiry <$> users (db w)).
Proof.
  intros same_shop. subst same_shop. split; [|split].
  - intros email o. unfold requestReset. run.
    destruct (List.find _ _) as [user|]; [|by intros [= <- <-]]. simpl.
    destruct (update_first _ _ _) as [[y l]|] eqn:Hu; simpl; [|by intros [= <- <-]].
    destruct (transport_sendMail _); intros [= <- <-]; simpl;
      repeat split; try done;
      (eapply update_first_fmap; [|exact Hu]; by intros).
  - intros args o. unfold resetPassword.
    destruct (String.eqb _ _); simpl; [|by intros [= <- <-]]. run.
    destruct (head _) as [user|]; [|by intros [= <- <-]]. simpl.
    destruct (update_first _ _ _) as [[y l]|] eqn:Hu; simpl; intros [= <- <-];
      simpl; [|done].
    repeat split; try done;
      (eapply update_first_fmap; [|exact Hu]; by intros).
  - intros args o. unfold updatePermissions.
    destruct (signed_in ctx) as [u|]; [|by intros [= <- <-]]. run.
    destruct (List.find _ _) as [caller|]; [|by intros [= <- <-]].
    destruct (hasPermission _ _); simpl; [|by intros [= <- <-]].
    destruct (update_first _ _ _) as [[y l]|] eqn:Hu; simpl; intros [= <- <-];
      simpl; [|done].
    repeat split; try done;
      (eapply update_first_fmap; [|exact Hu]; by intros).
Qed.
End UserUpdates.

(** ** updateItem with nothing to update *)

Lemma update_first_same {A} (p : A → bool) (f : A → A) (l : list A) (x : A) :
  List.find p l = Some x → f x = x → update_first p f l = Some (x, l).
Proof.
  intros Hfind Hfix. destruct (update_first_find p f l x Hfind) as (l1 & l2 & -> & Hu).
  by rewrite Hu, Hfix.
Qed.

Lemma patch_empty (x : Item.t) : Item.patch ∅ x = x.
Proof. unfold Item.patch. rewrite !lookup_empty. by destruct x. Qed.

Section UpdateNothing.
Context `{Externals}.

(** X20.  [updateItem] with arguments that hold an [id] and no other field:
    when the id names an item, the database accepts the empty update, the
    item is returned as it is and the world is unchanged. *)
Theorem updateItem_only_id (i : string) (ctx : Ctx) (w : World) (item : Item.t) :
  List.find (has_item_id i) (items (db w)) = Some item →
  updateItem {[ "id" := VStr i ]} ctx w = (Resolved item, w).
Proof.
  intros Hfind.
  unfold updateItem. rewrite delete_singleton_eq, lookup_singleton_eq. run.
  replace (Item.valid_update ∅) with true by (symmetry; apply bool_decide_eq_true, map_Forall_empty).
  replace (connects (db w) ∅) with true by (unfold connects; by rewrite lookup_empty).
  simpl. rewrite (update_first_same _ _ _ _ Hfind (patch_empty item)).
  by rewrite db_eta, world_eta.
Qed.
End UpdateNothing.

Lemma updateItem_only_id_witness :
  updateItem {[ "id" := VStr "A" ]} (Sample.anonymous 0) Sample.world
  = (Resolved Sample.A, Sample.world).
Proof.
  apply (updateItem_only_id "A" (Sample.anonymous 0) Sample.world Sample.A eq_refl).
Defined.
